(** * Transactional test isolation over knex: a shallow embedding

  The development follows the repository file by file:

  - [Js]      the few JavaScript values and completions the code handles;
  - [Pg]      the [items] relation of [migrations/..._table-items.js], its
              identity sequence and the statements the code sends;
  - [Promise] promises as cells of a store, with [catch];
  - [Knex]    the world the code runs in: connection, transactions,
              statement execution through a handle;
  - [Harness] [src/__test__.js]: [rejected] and [begin];
  - [ItemsData] [src/items-data.js];
  - [Seeds]   [seeds/dev/index.js];
  - [Mocha]   [src/items-data.test.js] and the sequential runner, with the
              [before] and [after] hooks of [src/__test__.js];
  - [Notions] the predicates the statements are written with.

  PostgreSQL, knex and mocha are the environment of the code; they are
  modelled as far as the code observes them, and each modelled behaviour
  is stated where it is defined. *)

From Stdlib Require Import ZArith Bool Lia Ascii.
From stdpp Require Import base list strings.

Local Open Scope string_scope.
Local Open Scope list_scope.

(* ===================================================================== *)
(** * JavaScript values *)
(* ===================================================================== *)
Module Js.

(** One row of [items]: [increments('id')], [string('sku')] not null,
    [string('mpn')], [text('description')]. *)
Record row := Row {
  id : Z;
  sku : string;
  mpn : option string;
  description : option string
}.

(** The values that flow through the code: what a query resolves to,
    what [deleteById] returns, what a promise is rejected with. *)
Inductive value :=
| VUndef
| VBool (b : bool)
| VNum (z : Z)
| VRow (r : row)
| VRows (rs : list row)
| VErr (msg : string).

(** JavaScript's ToBoolean on these values: [undefined] and [0] are
    falsy, objects and arrays (also empty ones) are truthy. *)
Definition truthy (v : value) : bool :=
  match v with
  | VUndef => false
  | VBool b => b
  | VNum z => negb (z =? 0)%Z
  | VRow _ => true
  | VRows _ => true
  | VErr _ => true
  end.

(** [const [ x ] = xs]: the first element, [undefined] when there is none. *)
Definition first_of (xs : list Z) : value :=
  match xs with
  | [] => VUndef
  | x :: _ => VNum x
  end.

(** How an awaited operation ends. *)
Inductive outcome :=
| Resolved (v : value)
| Failed (e : value).

End Js.
Export Js.

(* ===================================================================== *)
(** * The items relation *)
(* ===================================================================== *)
Module Pg.

(** The object given to [insert] or [update]: any subset of the columns. *)
Record fields := Fields {
  f_id : option Z;
  f_sku : option string;
  f_mpn : option string;
  f_description : option string
}.

(** What a session sees of [items] while a statement runs: the rows, and
    the next value of the identity sequence of [id]. *)
Record tstate := TState {
  t_rows : list row;
  t_seq : Z
}.

Inductive qresult (A : Type) :=
| QOk (a : A)
| QErr (msg : string).
Arguments QOk {A} a.
Arguments QErr {A} msg.

Definition ids_of (rs : list row) : list Z := map id rs.
Definition skus_of (rs : list row) : list string := map sku rs.

Fixpoint distinct {A : Type} `{EqDecision A} (l : list A) : bool :=
  match l with
  | [] => true
  | x :: l' => negb (bool_decide (x ∈ l')) && distinct l'
  end.

(** [primary()] on [id] and [unique()] on [sku]. *)
Definition keys_ok (rs : list row) : bool :=
  distinct (ids_of rs) && distinct (skus_of rs).

(** [select('*').from('items')] *)
Definition select_all (t : tstate) : qresult (list row) * tstate :=
  (QOk (t_rows t), t).

(** [select('*').from('items').where({ id }).first()]. The range of the
    column ([id] is a 32-bit integer) is not modelled here: what is stated
    about a call with an id says where it needs the id in that range. *)
Definition select_by_id (i : Z) (t : tstate) : qresult (option row) * tstate :=
  (QOk (head (filter (fun r => id r = i) (t_rows t))), t).

(** [insert(item).into('items').returning('id')]: an absent [id] takes the
    next value of the sequence, and that value stays taken when the
    statement fails; [sku] must be given; the keys must stay unique. The
    range of [id] and the lengths of [sku] and [mpn] (255 characters) are
    not modelled here: what is stated about an insert says where it needs
    the values within them. *)
Definition insert_returning (it : fields) (t : tstate) : qresult (list Z) * tstate :=
  let '(i, seq') :=
    match f_id it with
    | Some i => (i, t_seq t)
    | None => (t_seq t, (t_seq t + 1)%Z)
    end in
  match f_sku it with
  | None => (QErr "null value in column sku violates not-null constraint",
             TState (t_rows t) seq')
  | Some s =>
      let rs' := t_rows t ++ [Row i s (f_mpn it) (f_description it)] in
      if keys_ok rs'
      then (QOk [i], TState rs' seq')
      else (QErr "duplicate key value violates unique constraint",
            TState (t_rows t) seq')
  end.

Definition apply_fields (p : fields) (r : row) : row :=
  Row (default (id r) (f_id p))
      (default (sku r) (f_sku p))
      (match f_mpn p with Some m => Some m | None => mpn r end)
      (match f_description p with Some d => Some d | None => description r end).

(** An object without any of the columns. *)
Definition no_fields (p : fields) : bool :=
  match p with
  | Fields None None None None => true
  | _ => false
  end.

(** [update(props).where({ id }).into('items')]: resolves to the number
    of rows changed. With nothing to set, knex sends [update "items" set
    where ...], which is a syntax error. A changed row is a new version of
    the row, and a scan of the table returns it after the rows that were
    not changed. The range of [id] and the lengths of [sku] and [mpn] are
    not modelled here: what is stated about an update says where it needs
    the values within them. *)
Definition update_where (i : Z) (p : fields) (t : tstate) : qresult Z * tstate :=
  if no_fields p then (QErr "syntax error at or near where", t)
  else
    let rs' := filter (fun r => id r <> i) (t_rows t)
               ++ map (apply_fields p) (filter (fun r => id r = i) (t_rows t)) in
    if keys_ok rs'
    then (QOk (Z.of_nat (length (filter (fun r => id r = i) (t_rows t)))),
          TState rs' (t_seq t))
    else (QErr "duplicate key value violates unique constraint", t).

(** [delete().from('items').where({ id }).returning('id')]. The range
    of the column is not modelled here: what is stated about a delete
    says where it needs the id in that range. *)
Definition delete_returning (i : Z) (t : tstate) : qresult (list Z) * tstate :=
  (QOk (ids_of (filter (fun r => id r = i) (t_rows t))),
   TState (filter (fun r => id r <> i) (t_rows t)) (t_seq t)).

(** Any other relation of the database: only its place in the catalog,
    its size and its sequence matter to the seed. *)
Record relation := Relation {
  schemaname : string;
  tablename : string;
  tuples : list (list value);
  identity : Z
}.

(** The committed database: [items] (created by the migration in the
    default schema, [public]) and the other relations. *)
Record database := Database {
  items_rows : list row;
  items_seq : Z;
  others : list relation
}.

(** The catalog view [pg_tables], as (schemaname, tablename). *)
Definition pg_tables (d : database) : list (string * string) :=
  ("public", "items") :: map (fun r => (schemaname r, tablename r)) (others d).

(** [s like '%p%'] for a pattern [p] without wildcards. *)
Fixpoint like_infix (p s : string) : bool :=
  String.prefix p s ||
  match s with
  | EmptyString => false
  | String _ s' => like_infix p s'
  end.

(** [truncate table n1,n2,... restart identity], given the tables the
    statement names: unqualified names are those of the [public] schema.
    How a name in the text of a statement is read is not modelled here:
    what is stated about the seed says where it needs the names to stand
    for themselves. *)
Definition truncate_relation (names : list string) (r : relation) : relation :=
  if bool_decide (schemaname r = "public") && bool_decide (tablename r ∈ names)
  then Relation (schemaname r) (tablename r) [] 1
  else r.

Definition truncate_restart (names : list string) (d : database) : database :=
  let trunc_items := bool_decide ("items" ∈ names) in
  Database (if trunc_items then [] else items_rows d)
           (if trunc_items then 1%Z else items_seq d)
           (map (truncate_relation names) (others d)).

End Pg.
Export Pg.

(* ===================================================================== *)
(** * Promises *)
(* ===================================================================== *)
Module Promise.

Definition pid := nat.

Inductive settled :=
| Pending
| Fulfilled (v : value)
| Rejected (e : value).

(** A handler returns a value or throws. *)
Inductive hresult :=
| Return (v : value)
| Throw (e : value).

Definition handler := value -> hresult.

(** The settlement of [p.catch(h)] from the settlement of [p]: a
    fulfilment passes through, a rejection is given to [h]. *)
Definition catch_settled (h : handler) (s : settled) : settled :=
  match s with
  | Pending => Pending
  | Fulfilled v => Fulfilled v
  | Rejected e =>
      match h e with
      | Return v => Fulfilled v
      | Throw e' => Rejected e'
      end
  end.

(** A promise is either settled from outside (by its resolver or
    rejecter) or derived from another one by [catch]. *)
Inductive cell :=
| Root (s : settled)
| Catch (src : pid) (h : handler).

(** The promises of the process, newest first: the promise created when
    the store held [n] cells is number [n]. *)
Definition store := list cell.

Definition alloc (c : cell) (st : store) : pid * store :=
  (length st, c :: st).

(** The state of a promise. A derived promise follows its source (the
    delay of one microtask between the two is not modelled). *)
Fixpoint state_of (st : store) (p : pid) : settled :=
  match st with
  | [] => Pending
  | c :: rest =>
      if bool_decide (p = length rest)
      then match c with
           | Root s => s
           | Catch src h => catch_settled h (state_of rest src)
           end
      else state_of rest p
  end.

(** Calling the resolver or the rejecter of a root promise; a promise
    settles once. *)
Fixpoint settle (p : pid) (s : settled) (st : store) : store :=
  match st with
  | [] => []
  | c :: rest =>
      if bool_decide (p = length rest)
      then match c with
           | Root Pending => Root s :: rest
           | _ => c :: rest
           end
      else c :: settle p s rest
  end.

(** [p.catch(h)] *)
Definition promise_catch (p : pid) (h : handler) (st : store) : pid * store :=
  alloc (Catch p h) st.

Definition is_rejected (s : settled) : bool :=
  match s with
  | Rejected _ => true
  | _ => false
  end.

(** A promise is handled when a reaction is attached to it. *)
Definition handled (st : store) (p : pid) : bool :=
  existsb (fun c => match c with
                    | Catch src _ => bool_decide (src = p)
                    | Root _ => false
                    end) st.

(** What the process reports as [unhandledRejection]: the rejected
    promises nobody handles. *)
Definition unhandled_rejections (st : store) : list pid :=
  filter (fun p => is_rejected (state_of st p) && negb (handled st p) = true)
         (seq 0 (length st)).

End Promise.
Export Promise.

(* ===================================================================== *)
(** * knex: the connection, transactions and statement execution *)
(* ===================================================================== *)
Module Knex.

(** What a repository is bound to: the root instance [db] or a
    transaction. *)
Inductive handle :=
| Pool
| Trx (n : nat).

#[export] Instance handle_eq_dec : EqDecision handle.
Proof. solve_decision. Defined.

Inductive scope_state :=
| Requested
| Open
| Committed
| RolledBack
| Aborted.

#[export] Instance scope_state_eq_dec : EqDecision scope_state.
Proof. solve_decision. Defined.

(** A transaction: its state, the rows of [items] as it sees them,
    whether a statement failed in it (PostgreSQL then refuses every
    further statement until the rollback), and its lifetime promise. *)
Record scope := Scope {
  sc_state : scope_state;
  sc_view : list row;
  sc_failed : bool;
  sc_lifetime : pid
}.

Inductive stmt :=
| SBegin
| SCommit
| SRollback
| SSelectAll
| SSelectById (i : Z)
| SInsert (it : fields)
| SUpdate (i : Z) (p : fields)
| SDelete (i : Z)
| SSelectTables
| STruncate (names : list string)
| SInsertRows (its : list fields).

Inductive event :=
| EvSeedRun
| EvSql (h : handle) (s : stmt)
| EvDone
| EvBody
| EvDestroy.

(** Everything the code reads and writes: the committed database, the
    transactions, the promises, the rejections reported as unhandled,
    what happened so far (oldest first), how often [done] was called,
    whether the pool was destroyed, and the variables [trx] and [items]
    of the test file ([items] is the handle its repository is bound to). *)
Record world := World {
  pg : database;
  scopes : list scope;
  promises : store;
  unhandled : list pid;
  log : list event;
  dones : nat;
  destroyed : bool;
  var_trx : option handle;
  var_items : option handle
}.

Definition with_pg (d : database) (w : world) : world :=
  World d (scopes w) (promises w) (unhandled w) (log w) (dones w)
        (destroyed w) (var_trx w) (var_items w).
Definition with_scopes (s : list scope) (w : world) : world :=
  World (pg w) s (promises w) (unhandled w) (log w) (dones w)
        (destroyed w) (var_trx w) (var_items w).
Definition with_promises (st : store) (u : list pid) (w : world) : world :=
  World (pg w) (scopes w) st u (log w) (dones w)
        (destroyed w) (var_trx w) (var_items w).
Definition emit (e : event) (w : world) : world :=
  World (pg w) (scopes w) (promises w) (unhandled w) (log w ++ [e]) (dones w)
        (destroyed w) (var_trx w) (var_items w).
Definition with_dones (n : nat) (w : world) : world :=
  World (pg w) (scopes w) (promises w) (unhandled w) (log w) n
        (destroyed w) (var_trx w) (var_items w).
Definition with_destroyed (b : bool) (w : world) : world :=
  World (pg w) (scopes w) (promises w) (unhandled w) (log w) (dones w)
        b (var_trx w) (var_items w).
Definition with_vars (t i : option handle) (w : world) : world :=
  World (pg w) (scopes w) (promises w) (unhandled w) (log w) (dones w)
        (destroyed w) t i.

(** A world with nothing in flight over a database. *)
Definition boot (d : database) : world :=
  World d [] [] [] [] 0 false None None.

(** How a synchronous call ends. *)
Inductive completion :=
| Normal (w : world)
| Abrupt (e : value) (w : world).

Definition items_state (rs : list row) (w : world) : tstate :=
  TState rs (items_seq (pg w)).

Definition store_items (rs : list row) (seq : Z) (w : world) : world :=
  with_pg (Database rs seq (others (pg w))) w.

(** Running one statement on [items] through a handle.
    - Through [db]: the statement is its own transaction.
    - Through a transaction: it works on the transaction's view; a
      failure poisons the transaction; the sequence is advanced in the
      database itself, outside any transaction. knex refuses a statement
      on a transaction that is not open without sending it. *)
Definition exec {A : Type} (h : handle) (s : stmt)
    (q : tstate -> qresult A * tstate) (w : world) : qresult A * world :=
  match h with
  | Pool =>
      if destroyed w then (QErr "Unable to acquire a connection", w)
      else
        let '(r, t) := q (items_state (items_rows (pg w)) w) in
        (r, store_items (t_rows t) (t_seq t) (emit (EvSql Pool s) w))
  | Trx n =>
      match scopes w !! n with
      | None => (QErr "Transaction query already complete", w)
      | Some sc =>
          if negb (bool_decide (sc_state sc = Open))
          then (QErr "Transaction query already complete", w)
          else if sc_failed sc
          then (QErr "current transaction is aborted", emit (EvSql h s) w)
          else
            let '(r, t) := q (items_state (sc_view sc) w) in
            let failed := match r with QOk _ => false | QErr _ => true end in
            let sc' := Scope Open (t_rows t) failed (sc_lifetime sc) in
            let w1 := emit (EvSql h s) w in
            (r, store_items (items_rows (pg w)) (t_seq t)
                  (with_scopes (<[n := sc']> (scopes w)) w1))
      end
  end.

(** Running one raw statement on the database through [db]. *)
Definition exec_raw {A : Type} (s : stmt)
    (q : database -> qresult A * database) (w : world) : qresult A * world :=
  if destroyed w then (QErr "Unable to acquire a connection", w)
  else
    let '(r, d) := q (pg w) in
    (r, with_pg d (emit (EvSql Pool s) w)).

(** Settling a promise, and reporting the rejections left unhandled. *)
Definition settle_in (p : pid) (s : settled) (w : world) : world :=
  let st := settle p s (promises w) in
  with_promises st
    (unhandled w ++
     filter (fun q => q ∉ unhandled w) (unhandled_rejections st)) w.

Definition set_scope_state (n : nat) (s : scope_state) (w : world) : world :=
  match scopes w !! n with
  | None => w
  | Some sc =>
      with_scopes
        (<[n := Scope s (sc_view sc) (sc_failed sc) (sc_lifetime sc)]> (scopes w)) w
  end.

(** [trx.rollback(err)]: sends ROLLBACK, and the lifetime promise is
    rejected with [err]; on a transaction that is not open nothing is
    sent. The promise it returns resolves. [db] has no such method. *)
Definition rollback (h : handle) (err : value) (w : world) : completion :=
  match h with
  | Pool => Abrupt (VErr "TypeError: rollback is not a function") w
  | Trx n =>
      match scopes w !! n with
      | None => Normal w
      | Some sc =>
          if bool_decide (sc_state sc = Open)
          then Normal (settle_in (sc_lifetime sc) (Rejected err)
                         (set_scope_state n RolledBack
                            (emit (EvSql h SRollback) w)))
          else Normal w
      end
  end.

(** [trx.commit(val)]: sends COMMIT, the view becomes the committed
    table, and the lifetime promise is fulfilled with [val]. PostgreSQL
    answers the COMMIT of a poisoned transaction by rolling it back,
    without an error. *)
Definition commit (h : handle) (val : value) (w : world) : completion :=
  match h with
  | Pool => Abrupt (VErr "TypeError: commit is not a function") w
  | Trx n =>
      match scopes w !! n with
      | None => Normal w
      | Some sc =>
          if bool_decide (sc_state sc = Open)
          then
            let w1 := emit (EvSql h SCommit) w in
            let w2 := if sc_failed sc then w1
                      else store_items (sc_view sc) (items_seq (pg w1)) w1 in
            Normal (settle_in (sc_lifetime sc) (Fulfilled val)
                      (set_scope_state n
                         (if sc_failed sc then RolledBack else Committed) w2))
          else Normal w
      end
  end.

(** Whether the transaction could start: a connection was acquired and
    BEGIN acknowledged, or not. *)
Inductive start :=
| Started
| StartFailed (e : value).

(** The transaction callback: it receives the handle and returns
    nothing. *)
Definition container := handle -> world -> completion.

(** Work that knex does in a later turn of the event loop. *)
Definition job := start -> world -> world.

(** BEGIN was acknowledged: the transaction is open on the committed
    rows. *)
Definition open_scope (n : nat) (p : pid) (w : world) : world :=
  let w1 := emit (EvSql (Trx n) SBegin) w in
  with_scopes (<[n := Scope Open (items_rows (pg w1)) false p]> (scopes w1)) w1.

(** The deferred half of [db.transaction(container)]. When the start
    fails the lifetime promise is rejected and the container is not
    called. Otherwise the container is called with the handle; an
    exception thrown by it is caught and becomes a rollback with that
    error (in knex: "directly thrown errors are treated as automatic
    rollbacks"); since it returns no promise, nothing is chained to its
    return and the transaction stays open. *)
Definition start_transaction (n : nat) (p : pid) (c : container) : job :=
  fun a w =>
    match a with
    | StartFailed e =>
        settle_in p (Rejected e) (set_scope_state n Aborted w)
    | Started =>
        match c (Trx n) (open_scope n p w) with
        | Normal w3 => w3
        | Abrupt e w3 =>
            match rollback (Trx n) e w3 with
            | Normal w4 => w4
            | Abrupt _ w4 => w4
            end
        end
    end.

(** The immediate half: the transaction object and its lifetime
    promise are created, nothing is sent yet. *)
Definition request (w : world) : pid * nat * world :=
  let '(p, st) := alloc (Root Pending) (promises w) in
  (p, length (scopes w),
   with_scopes (scopes w ++ [Scope Requested [] false p])
     (with_promises st (unhandled w) w)).

(** [db.transaction(container)]: returns the lifetime promise at once
    and leaves the start to a later turn. *)
Definition transaction (c : container) (w : world) : pid * job * world :=
  let '(p, n, w1) := request w in
  (p, start_transaction n p c, w1).

(** [db.destroy()] *)
Definition destroy (w : world) : world :=
  with_destroyed true (emit EvDestroy w).

End Knex.
Export Knex.

(* ===================================================================== *)
(** * src/__test__.js *)
(* ===================================================================== *)
Module Harness.

(** [const rejected = promise => promise.catch(err => err)] *)
Definition rejected (promise : pid) (st : store) : pid * store :=
  promise_catch promise (fun err => Return err) st.

(** [rejected] inside a world. *)
Definition rejected_in (promise : pid) (w : world) : pid * world :=
  let '(q, st) := rejected promise (promises w) in
  (q, with_promises st (unhandled w) w).

(** The callback [begin] gives to [db.transaction]:
    [trx => { setup(trx); done() }] *)
Definition begin_container (setup : handle -> world -> completion)
    (done : world -> world) : container :=
  fun trx w =>
    match setup trx w with
    | Normal w1 => Normal (done w1)
    | Abrupt e w1 => Abrupt e w1
    end.

(** [const begin = setup => done => { rejected(db.transaction(...)) }]:
    the hook returns at once, with the start of the transaction left
    for a later turn. *)
Definition begin (setup : handle -> world -> completion)
    (done : world -> world) (w : world) : completion * list job :=
  let '(p, j, w1) := transaction (begin_container setup done) w in
  let '(_, w2) := rejected_in p w1 in
  (Normal w2, [j]).

End Harness.
Export Harness.

(* ===================================================================== *)
(** * src/items-data.js *)
(* ===================================================================== *)
Module ItemsData.

Definition answer {A : Type} (f : A -> value) (r : qresult A * world)
    : outcome * world :=
  match r with
  | (QOk a, w) => (Resolved (f a), w)
  | (QErr m, w) => (Failed (VErr m), w)
  end.

Definition row_or_undefined (r : option row) : value :=
  match r with
  | Some x => VRow x
  | None => VUndef
  end.

Record repository := Repository {
  find : world -> outcome * world;
  findById : Z -> world -> outcome * world;
  create : fields -> world -> outcome * world;
  updateById : Z -> fields -> world -> outcome * world;
  deleteById : Z -> world -> outcome * world
}.

Section Bound.
Variable db : handle.

Definition find_ (w : world) : outcome * world :=
  answer VRows (exec db SSelectAll select_all w).

Definition findById_ (i : Z) (w : world) : outcome * world :=
  answer row_or_undefined (exec db (SSelectById i) (select_by_id i) w).

(** [const [ id ] = await db.insert(item)...; return findById(id)] *)
Definition create_ (item : fields) (w : world) : outcome * world :=
  match exec db (SInsert item) (insert_returning item) w with
  | (QErr m, w1) => (Failed (VErr m), w1)
  | (QOk ids, w1) =>
      match first_of ids with
      | VNum i => findById_ i w1
      | _ => (Failed (VErr "Undefined binding(s) detected"), w1)
      end
  end.

(** [await db.update(props)...; return findById(id)] *)
Definition updateById_ (i : Z) (props : fields) (w : world) : outcome * world :=
  match exec db (SUpdate i props) (update_where i props) w with
  | (QErr m, w1) => (Failed (VErr m), w1)
  | (QOk _, w1) => findById_ i w1
  end.

(** [const [ deleted ] = await db.delete()...; return !!deleted] *)
Definition deleteById_ (i : Z) (w : world) : outcome * world :=
  match exec db (SDelete i) (delete_returning i) w with
  | (QErr m, w1) => (Failed (VErr m), w1)
  | (QOk ids, w1) =>
      let deleted := first_of ids in
      (Resolved (VBool (truthy deleted)), w1)
  end.
End Bound.

Definition itemsData (db : handle) : repository :=
  Repository (find_ db) (findById_ db) (create_ db) (updateById_ db)
             (deleteById_ db).

End ItemsData.
Export ItemsData.

(* ===================================================================== *)
(** * seeds/dev/index.js *)
(* ===================================================================== *)
Module Seeds.

(** The three objects of the [insert]. *)
Definition seed_items : list fields :=
  [ Fields None (Some "hammer") None (Some "A Claw Hammer");
    Fields None (Some "drill") None (Some "A Power Drill");
    Fields None (Some "toolbelt") None (Some "A Useful Belt") ].

(** [select array_agg(tablename) from pg_tables where schemaname =
    'public' and not tablename like '%migrations%']: the aggregate of no
    row is NULL. *)
Definition seed_tables (d : database) : option (list string) :=
  match filter (fun st => st.1 = "public" /\ like_infix "migrations" st.2 = false)
               (pg_tables d) with
  | [] => None
  | l => Some (map snd l)
  end.

(** One [insert] of several rows: a single statement, all or nothing. *)
Fixpoint insert_each (its : list fields) (t : tstate) : qresult unit * tstate :=
  match its with
  | [] => (QOk tt, t)
  | it :: rest =>
      match insert_returning it t with
      | (QOk _, t1) => insert_each rest t1
      | (QErr m, t1) => (QErr m, t1)
      end
  end.

Definition insert_rows (its : list fields) (t : tstate) : qresult unit * tstate :=
  match insert_each its t with
  | (QOk u, t1) => (QOk u, t1)
  | (QErr m, t1) => (QErr m, TState (t_rows t) (t_seq t1))
  end.

(** [export const seed = async knex => ...], with [knex] the root
    instance, as [db.seed.run()] calls it: the select on the catalog, the
    truncate of the names it gave, the insert. The names are spliced into
    the text of the truncate as they are; the statement is taken here to
    name the tables of these names, which is so for names that read
    without quotes as themselves (see [read_names]). *)
Definition seed (w : world) : outcome * world :=
  match exec_raw SSelectTables (fun d => (QOk (seed_tables d), d)) w with
  | (QErr m, w1) => (Failed (VErr m), w1)
  | (QOk None, w1) =>
      (* `truncate table null restart identity` *)
      match exec_raw (STruncate [])
              (fun d => (@QErr unit "syntax error at or near null", d)) w1 with
      | (QErr m, w2) => (Failed (VErr m), w2)
      | (QOk _, w2) => (Resolved VUndef, w2)
      end
  | (QOk (Some tables), w1) =>
      match exec_raw (STruncate tables)
              (fun d => (QOk tt, truncate_restart tables d)) w1 with
      | (QErr m, w2) => (Failed (VErr m), w2)
      | (QOk _, w2) =>
          match exec Pool (SInsertRows seed_items) (insert_rows seed_items) w2 with
          | (QOk _, w3) => (Resolved VUndef, w3)
          | (QErr m, w3) => (Failed (VErr m), w3)
          end
      end
  end.

(** [db.seed.run()]: runs the seed files of [seeds/dev], of which there
    is one. *)
Definition seed_run (w : world) : outcome * world :=
  if destroyed w then (Failed (VErr "Unable to acquire a connection"), w)
  else seed (emit EvSeedRun w).

(** The rows the seed leaves in [items]. *)
Definition baseline : list row :=
  [ Row 1 "hammer" None (Some "A Claw Hammer");
    Row 2 "drill" None (Some "A Power Drill");
    Row 3 "toolbelt" None (Some "A Useful Belt") ].

End Seeds.
Export Seeds.

(* ===================================================================== *)
(** * src/items-data.test.js under mocha *)
(* ===================================================================== *)
Module Mocha.

(** ** The test file *)

(** [_trx => { trx = _trx; items = itemsData(trx) }] *)
Definition setup_items (_trx : handle) (w : world) : completion :=
  Normal (with_vars (Some _trx) (Some _trx) w).

(** [afterEach(() => trx.rollback())] *)
Definition after_each (w : world) : completion :=
  match var_trx w with
  | None => Abrupt (VErr "TypeError: Cannot read property rollback of undefined") w
  | Some trx => rollback trx VUndef w
  end.

(** One call of a test body on [items]. *)
Inductive call :=
| Find
| FindById (i : Z)
| Create (item : fields)
| UpdateById (i : Z) (props : fields)
| DeleteById (i : Z).

(** A test body: it awaits calls on [items], decides what to do next
    from what they gave, and ends passing or failing (an [expect] that
    throws). *)
Inductive script :=
| Pass
| Fail
| Await (c : call) (k : outcome -> script).

Definition perform (c : call) (w : world) : outcome * world :=
  match var_items w with
  | None => (Failed (VErr "TypeError: Cannot read property of undefined"), w)
  | Some h =>
      let items := itemsData h in
      match c with
      | Find => find items w
      | FindById i => findById items i w
      | Create item => create items item w
      | UpdateById i props => updateById items i props w
      | DeleteById i => deleteById items i w
      end
  end.

(** What a test body did: whether it passed, and what its calls gave. *)
Record result := Result {
  passed : bool;
  observed : list outcome
}.

Fixpoint run_script (s : script) (w : world) : result * world :=
  match s with
  | Pass => (Result true [], w)
  | Fail => (Result false [], w)
  | Await c k =>
      let '(o, w1) := perform c w in
      let '(r, w2) := run_script (k o) w1 in
      (Result (passed r) (o :: observed r), w2)
  end.

(** The five tests of the file. *)
Definition has_all_keys (v : value) : bool :=
  match v with
  | VRow _ => true
  | _ => false
  end.

Definition test_find : script :=
  Await Find (fun o =>
    match o with
    | Resolved (VRows l) => if (1 <? length l)%nat then Pass else Fail
    | _ => Fail
    end).

Definition test_findById : script :=
  Await (FindById 1) (fun o =>
    match o with
    | Resolved v => if has_all_keys v then Pass else Fail
    | Failed _ => Fail
    end).

Definition saw : fields := Fields None (Some "saw") None (Some "A Nice Saw").

Definition test_create : script :=
  Await (Create saw) (fun o =>
    match o with
    | Resolved (VRow r) =>
        if bool_decide (sku r = "saw")
           && bool_decide (description r = Some "A Nice Saw")
        then Pass else Fail
    | _ => Fail
    end).

Definition best_seller : fields := Fields None None None (Some "Our best seller!").

Definition test_updateById : script :=
  Await (UpdateById 1 best_seller) (fun o =>
    match o with
    | Resolved (VRow r) =>
        if bool_decide (description r = Some "Our best seller!") then Pass else Fail
    | _ => Fail
    end).

Definition test_deleteById : script :=
  Await (DeleteById 1) (fun o =>
    match o with
    | Resolved (VBool true) => Pass
    | _ => Fail
    end).

(** ** The runner *)

(** The [done] that mocha passes to a hook. *)
Definition mocha_done (w : world) : world :=
  with_dones (S (dones w)) (emit EvDone w).

Definition hook := (world -> world) -> world -> completion * list job.

Inductive hook_result :=
| HookDone
| HookThrew (e : value)
| HookTimedOut.

(** The event loop between the return of a hook and mocha's decision:
    the pending jobs run, each with what the environment answers. *)
Fixpoint run_jobs (a : start) (js : list job) (w : world) : world :=
  match js with
  | [] => w
  | j :: rest => run_jobs a rest (j a w)
  end.

(** A hook that takes [done]: mocha calls it, and waits until [done] has
    been called; a hook that throws has failed; a hook whose [done] is
    never called is failed by the timeout. *)
Definition run_hook (h : hook) (a : start) (w : world) : hook_result * world :=
  let n := dones w in
  match h mocha_done w with
  | (Abrupt e w1, _) => (HookThrew e, w1)
  | (Normal w1, js) =>
      let w2 := run_jobs a js w1 in
      if (n <? dones w2)%nat then (HookDone, w2) else (HookTimedOut, w2)
  end.

(** One test of the suite: how its transaction start goes, and its body. *)
Record test := Test {
  env : start;
  body : script
}.

Inductive report :=
| Ran (r : result)
| BeforeEachFailed (h : hook_result)
| AfterEachFailed (r : result) (e : value).

(** The body of a test, then [afterEach]: the hook runs whether the
    body passed or not. *)
Definition run_body (s : script) (w : world) : report * world :=
  let '(r, w2) := run_script s (emit EvBody w) in
  match after_each w2 with
  | Normal w3 => (Ran r, w3)
  | Abrupt e w3 => (AfterEachFailed r e, w3)
  end.

(** A test under a [beforeEach] hook [h]: the body starts once the hook
    is done; after a failed [beforeEach] the body is skipped and the
    [afterEach] hook still runs. *)
Definition run_test_with (h : hook) (t : test) (w : world) : report * world :=
  match run_hook h (env t) w with
  | (HookDone, w1) => run_body (body t) w1
  | (r, w1) =>
      match after_each w1 with
      | Normal w2 => (BeforeEachFailed r, w2)
      | Abrupt _ w2 => (BeforeEachFailed r, w2)
      end
  end.

(** [beforeEach(begin(_trx => { ... }))] *)
Definition run_test : test -> world -> report * world :=
  run_test_with (begin setup_items).

(** The tests run one after the other; a failed hook ends the suite. *)
Fixpoint run_tests (ts : list test) (w : world) : list report * world :=
  match ts with
  | [] => ([], w)
  | t :: rest =>
      match run_test t w with
      | (Ran r, w1) =>
          let '(rs, w2) := run_tests rest w1 in (Ran r :: rs, w2)
      | (rep, w1) => ([rep], w1)
      end
  end.

(** [before(() => db.seed.run())], the tests, [after(() => db.destroy())]. *)
Definition run_suite (ts : list test) (w : world) : list report * world :=
  match seed_run w with
  | (Resolved _, w1) =>
      let '(rs, w2) := run_tests ts w1 in (rs, destroy w2)
  | (Failed _, w1) => ([], destroy w1)
  end.

(** A suite in which every transaction starts. *)
Definition scoped (bodies : list script) : list test := map (Test Started) bodies.

End Mocha.
Export Mocha.


(* ===================================================================== *)
(** * Notions used in the statements *)
(* ===================================================================== *)
Module Notions.

(** The store as time passes: promises settle, promises are created. *)
Inductive evolves : store -> store -> Prop :=
| evolves_refl st : evolves st st
| evolves_settle st st' r s : evolves st st' -> evolves st (settle r s st')
| evolves_alloc st st' c : evolves st st' -> evolves st (c :: st').

(** The store of a process that only makes promises through [begin]:
    every lifetime promise is followed by the promise [rejected] derives
    from it. *)
Inductive paired : store -> Prop :=
| paired_nil : paired []
| paired_cons st s :
    paired st ->
    paired (Catch (length st) (fun err => Return err) :: Root s :: st).

(** A transaction that is over: rolled back, or never started. *)
Definition closed (sc : scope) : Prop :=
  sc_state sc = RolledBack \/ sc_state sc = Aborted.

Definition is_commit (e : event) : bool :=
  match e with
  | EvSql _ SCommit => true
  | _ => false
  end.

Definition is_seed_run (e : event) : bool :=
  match e with
  | EvSeedRun => true
  | _ => false
  end.

Definition is_begin (e : event) : bool :=
  match e with
  | EvSql _ SBegin => true
  | _ => false
  end.

(** The statements a repository sends. *)
Definition is_dml (s : stmt) : bool :=
  match s with
  | SSelectAll | SSelectById _ | SInsert _ | SUpdate _ _ | SDelete _ => true
  | _ => false
  end.

(** An event of a test body running on transaction [n]. *)
Definition dml_on (n : nat) (e : event) : Prop :=
  exists s, e = EvSql (Trx n) s /\ is_dml s = true.

(** The world in which [begin] calls [setup] when the transaction has
    started: the lifetime promise exists and [rejected] is attached,
    BEGIN was sent, the transaction is open. *)
Definition entered (w : world) : world :=
  let '(p, n, w1) := request w in
  open_scope n p (snd (rejected_in p w1)).

(** The world in which the body of a test starts, when its transaction
    has started from [w]. *)
Definition body_world (w : world) : world :=
  emit EvBody
    (mocha_done
       (with_vars (Some (Trx (length (scopes w)))) (Some (Trx (length (scopes w))))
          (entered w))).

Definition is_err {A : Type} (r : qresult A) : bool :=
  match r with
  | QOk _ => false
  | QErr _ => true
  end.

(** The names the seed reads from the catalog. *)
Definition seed_names (d : database) : list string :=
  "items" ::
  map snd (filter (fun st => st.1 = "public" /\ like_infix "migrations" st.2 = false)
             (map (fun r => (schemaname r, tablename r)) (others d))).

(** The world after the [before] hook of the suite, from a database. *)
Definition seeded (d : database) : world := snd (seed_run (boot d)).

(** A world in the middle of a test body whose transaction is [n] with
    lifetime promise [p]: against the world [w0] in which the body
    started, only the view, the poison flag, the sequence and the log
    have moved. *)
Definition in_scope (w0 : world) (n : nat) (p : pid) (view : list row)
    (failed : bool) (seq : Z) (evs : list event) : world :=
  World (Database (items_rows (pg w0)) seq (others (pg w0)))
        (<[n := Scope Open view failed p]> (scopes w0))
        (promises w0) (unhandled w0) (log w0 ++ evs) (dones w0)
        (destroyed w0) (var_trx w0) (var_items w0).

Definition during (w0 : world) (n : nat) (p : pid) (w : world) : Prop :=
  exists view failed seq evs,
    w = in_scope w0 n p view failed seq evs /\ Forall (dml_on n) evs.

(** A statement whose result and rows do not depend on the sequence. *)
Definition blind {A : Type} (q : tstate -> qresult A * tstate) : Prop :=
  forall v s1 s2,
    fst (q (TState v s1)) = fst (q (TState v s2))
    /\ t_rows (snd (q (TState v s1))) = t_rows (snd (q (TState v s2))).

(** Two worlds, each in the middle of a test body, whose transactions
    have the same view and the same poison flag. *)
Definition same_session (W1 : world) (n1 : nat) (p1 : pid)
    (W2 : world) (n2 : nat) (p2 : pid) (w1 w2 : world) : Prop :=
  exists view failed seq1 seq2 evs1 evs2,
    w1 = in_scope W1 n1 p1 view failed seq1 evs1
    /\ w2 = in_scope W2 n2 p2 view failed seq2 evs2.

(** A call that takes no value from the identity sequence. *)
Definition sequence_free_call (c : call) : Prop :=
  match c with
  | Create item => f_id item <> None
  | _ => True
  end.

(** A test body none of whose calls takes a value from the sequence,
    whatever its calls give. *)
Inductive sequence_free : script -> Prop :=
| sequence_free_pass : sequence_free Pass
| sequence_free_fail : sequence_free Fail
| sequence_free_await c k :
    sequence_free_call c ->
    (forall o, sequence_free (k o)) ->
    sequence_free (Await c k).

(** The transactions for which BEGIN was sent. *)
Fixpoint begun (l : list event) : list nat :=
  match l with
  | [] => []
  | EvSql (Trx n) SBegin :: l' => n :: begun l'
  | _ :: l' => begun l'
  end.

(** An item inserted with the id 0 given explicitly. *)
Definition zero_item : fields := Fields (Some 0%Z) (Some "zero") None None.

(** A test that creates the saw and expects a given id for it. *)
Definition test_create_id (n : Z) : script :=
  Await (Create saw) (fun o =>
    match o with
    | Resolved (VRow r) => if bool_decide (id r = n) then Pass else Fail
    | _ => Fail
    end).

(** A [setup] that throws. *)
Definition failing_setup (e : value) : handle -> world -> completion :=
  fun _ w => Abrupt e w.

(** The error a lifetime promise is rejected with at the end of a test:
    [undefined] by [trx.rollback()], the failure when the transaction
    did not start. *)
Definition lifetime_error (a : start) : value :=
  match a with
  | Started => VUndef
  | StartFailed e => e
  end.

(** The state of the suite between two tests. *)
Record steady (w : world) : Prop := Steady {
  steady_rows : items_rows (pg w) = baseline;
  steady_paired : paired (promises w);
  steady_unhandled : unhandled w = [];
  steady_closed : Forall closed (scopes w);
  steady_log : exists rest,
      log w = EvSeedRun :: rest
      /\ Forall (fun e => is_seed_run e = false /\ is_commit e = false) rest;
  steady_rolled : forall n,
      EvSql (Trx n) SBegin ∈ log w ->
      EvSql (Trx n) SRollback ∈ log w
      /\ exists sc, scopes w !! n = Some sc /\ sc_state sc = RolledBack;
  steady_alive : destroyed w = false
}.

End Notions.
Export Notions.

(* ===================================================================== *)
(** * Notions for the repository on its own *)
(* ===================================================================== *)
Module Calls.

(** One call on the repository bound to [h]. *)
Definition invoke (h : handle) (c : call) (w : world) : outcome * world :=
  let items := itemsData h in
  match c with
  | Find => find items w
  | FindById i => findById items i w
  | Create item => create items item w
  | UpdateById i props => updateById items i props w
  | DeleteById i => deleteById items i w
  end.

(** A world in which statements were sent through [db] itself: against
    [w], only the committed rows of [items], the sequence and the log have
    moved. *)
Definition through_pool (w : world) (rows : list row) (seq : Z)
    (evs : list event) : world :=
  World (Database rows seq (others (pg w)))
        (scopes w) (promises w) (unhandled w) (log w ++ evs) (dones w)
        (destroyed w) (var_trx w) (var_items w).

(** The row an insert of [item] stores when [s] is its sku and the
    sequence stands at [seq]. *)
Definition stored_row (item : fields) (s : string) (seq : Z) : row :=
  Row (match f_id item with Some i => i | None => seq end)
      s (f_mpn item) (f_description item).

(** The sequence after an insert of [item]. *)
Definition seq_after (item : fields) (seq : Z) : Z :=
  match f_id item with
  | Some _ => seq
  | None => (seq + 1)%Z
  end.

(** ** What PostgreSQL accepts as a value of a column *)

(** [id] is a 32-bit integer. *)
Definition int4 (z : Z) : Prop := (-2147483648 <= z <= 2147483647)%Z.

(** A text holds no zero character. *)
Definition text_ok (s : string) : Prop :=
  Forall (fun c => c <> Ascii.zero) (String.list_ascii_of_string s).

(** [string(...)] is [varchar(255)]. *)
Definition varchar_ok (s : string) : Prop :=
  text_ok s /\ String.length s <= 255.

Definition if_given {A : Type} (P : A -> Prop) (o : option A) : Prop :=
  match o with
  | Some a => P a
  | None => True
  end.

(** The values of an object fit the columns they are for. *)
Definition storable (p : fields) : Prop :=
  if_given int4 (f_id p) /\ if_given varchar_ok (f_sku p)
  /\ if_given varchar_ok (f_mpn p) /\ if_given text_ok (f_description p).

(** ** How PostgreSQL reads names written without quotes *)















Definition is_destroy (e : event) : bool :=
  match e with
  | EvDestroy => true
  | _ => false
  end.

(** The world in which the body of the first test of a run starts, on
    the seed of an empty database. *)
Definition first_body : world := body_world (seeded (Database [] 1 [])).

(** The first row of the baseline. *)
Definition hammer : row := Row 1 "hammer" None (Some "A Claw Hammer").

(** The five tests of the test file. *)
Definition the_five : list script :=
  [test_find; test_findById; test_create; test_updateById; test_deleteById].

(** A store and the same store later, with some of its pending promises
    settled. *)
Inductive settles : store -> store -> Prop :=
| settles_nil : settles [] []
| settles_same c a b : settles a b -> settles (c :: a) (c :: b)
| settles_root s a b : settles a b -> settles (Root Pending :: a) (Root s :: b).

End Calls.
Export Calls.

(* ===================================================================== *)
(** * Facts about the promise store *)
(* ===================================================================== *)
Section StoreFacts.

Lemma settle_length p s st : length (settle p s st) = length st.
Proof.
  induction st as [|c rest IH]; simpl; [reflexivity|].
  case_bool_decide.
  - destruct c as [[| |]|]; reflexivity.
  - simpl. now rewrite IH.
Qed.

(** Promises created later do not change an earlier promise. *)
Lemma state_of_older ext st p :
  p < length st -> state_of (ext ++ st) p = state_of st p.
Proof.
  intros Hp. induction ext as [|c ext IH]; simpl; [reflexivity|].
  rewrite bool_decide_eq_false_2; [exact IH|].
  rewrite length_app. lia.
Qed.

Lemma state_of_here ext c st :
  state_of (ext ++ c :: st) (length st) =
  match c with
  | Root s => s
  | Catch src h => catch_settled h (state_of st src)
  end.
Proof.
  induction ext as [|c' ext IH]; simpl.
  - now rewrite bool_decide_eq_true_2.
  - rewrite bool_decide_eq_false_2; [exact IH|].
    rewrite length_app. simpl. lia.
Qed.

(** Settling never touches a derived promise, whatever its number. *)
Lemma settle_keeps_catch r s ext src h st :
  exists ext' st',
    settle r s (ext ++ Catch src h :: st) = ext' ++ Catch src h :: st'
    /\ length st' = length st
    /\ (st' = st \/ st' = settle r s st).
Proof.
  induction ext as [|c ext (ext' & st' & Heq & Hlen & Hst)]; simpl.
  - case_bool_decide.
    + exists [], st. auto.
    + exists [], (settle r s st). rewrite settle_length. auto.
  - case_bool_decide.
    + exists (match c with Root Pending => Root s | _ => c end :: ext), st.
      destruct c as [[| |]|]; auto.
    + exists (c :: ext'), st'. rewrite Heq. auto.
Qed.

Lemma evolves_keeps_catch src h st st2 :
  evolves (Catch src h :: st) st2 ->
  exists ext st', st2 = ext ++ Catch src h :: st' /\ length st' = length st.
Proof.
  remember (Catch src h :: st) as st1 eqn:E.
  induction 1 as [st1|st1 st2 r s _ IH|st1 st2 c _ IH]; subst.
  - exists [], st. auto.
  - destruct (IH eq_refl) as (ext & st' & -> & Hlen).
    destruct (settle_keeps_catch r s ext src h st') as (ext' & st'' & -> & Hlen' & _).
    exists ext', st''. split; [reflexivity|lia].
  - destruct (IH eq_refl) as (ext & st' & -> & Hlen).
    exists (c :: ext), st'. auto.
Qed.

Lemma paired_settle p s st : paired st -> paired (settle p s st).
Proof.
  induction 1 as [|st s0 Hst IH]; simpl; [constructor|].
  case_bool_decide.
  - constructor; assumption.
  - case_bool_decide.
    + destruct s0; constructor; assumption.
    + rewrite <- (settle_length p s st) at 1. constructor. exact IH.
Qed.

Lemma handled_older c st p : handled st p = true -> handled (c :: st) p = true.
Proof. unfold handled. simpl. intros ->. apply orb_true_r. Qed.

Lemma paired_quiet st p :
  paired st -> p < length st ->
  is_rejected (state_of st p) && negb (handled st p) = false.
Proof.
  induction 1 as [|st s Hst IH]; [simpl; lia|].
  intros Hp. cbn [state_of length] in *.
  case_bool_decide as H1.
  - rewrite bool_decide_eq_true_2 by reflexivity.
    destruct s; reflexivity.
  - case_bool_decide as H2.
    + subst p.
      assert (Hh : handled (Catch (length st) (fun err => Return err) :: Root s :: st)
                           (length st) = true).
      { unfold handled. cbn [existsb].
        rewrite bool_decide_eq_true_2 by reflexivity. reflexivity. }
      rewrite Hh. apply andb_false_r.
    + assert (Hlt : p < length st) by lia.
      specialize (IH Hlt).
      apply andb_false_iff in IH as [->|IH]; [reflexivity|].
      apply negb_false_iff in IH.
      rewrite (handled_older _ _ _ (handled_older _ _ _ IH)).
      apply andb_false_r.
Qed.

Lemma paired_no_unhandled st : paired st -> unhandled_rejections st = [].
Proof.
  intros Hst. unfold unhandled_rejections.
  assert (H : forall l, Forall (fun p => p < length st) l ->
    filter (fun p => is_rejected (state_of st p) && negb (handled st p) = true) l = []).
  { induction 1 as [|p l Hp _ IH]; [reflexivity|].
    rewrite filter_cons. rewrite decide_False; [exact IH|].
    rewrite (paired_quiet st p Hst Hp). discriminate. }
  apply H. apply Forall_forall. intros p Hp.
  apply list_elem_of_In, in_seq in Hp. lia.
Qed.

End StoreFacts.

(* ===================================================================== *)
(** * The hook, the body and the teardown in closed form *)
(* ===================================================================== *)
Section WorldFacts.

Lemma insert_last {A : Type} (l : list A) (x y : A) :
  <[length l := x]> (l ++ [y]) = l ++ [x].
Proof. induction l as [|a l IH]; simpl; [reflexivity|]. now rewrite IH. Qed.

Lemma lookup_last {A : Type} (l : list A) (y : A) :
  (l ++ [y]) !! length l = Some y.
Proof. induction l as [|a l IH]; simpl; [reflexivity|exact IH]. Qed.

Lemma database_eta d : Database (items_rows d) (items_seq d) (others d) = d.
Proof. destruct d; reflexivity. Qed.

(** [entered] spelled out. *)
Lemma entered_eq w :
  entered w =
  World (pg w)
        (scopes w ++ [Scope Open (items_rows (pg w)) false (length (promises w))])
        (Catch (length (promises w)) (fun err => Return err)
           :: Root Pending :: promises w)
        (unhandled w)
        (log w ++ [EvSql (Trx (length (scopes w))) SBegin])
        (dones w) (destroyed w) (var_trx w) (var_items w).
Proof.
  unfold entered, request, rejected_in, rejected, promise_catch, alloc,
    open_scope, with_scopes, with_promises, emit. simpl.
  now rewrite insert_last.
Qed.

(** The [beforeEach] hook when the transaction starts: [setup] is
    called in the entered world; what follows depends on how it ends. *)
Lemma run_hook_started setup w :
  run_hook (begin setup) Started w =
  match setup (Trx (length (scopes w))) (entered w) with
  | Normal w3 =>
      (if (dones w <? dones (mocha_done w3))%nat then HookDone else HookTimedOut,
       mocha_done w3)
  | Abrupt e w3 =>
      let w4 := match rollback (Trx (length (scopes w))) e w3 with
                | Normal w4 => w4
                | Abrupt _ w4 => w4
                end in
      (if (dones w <? dones w4)%nat then HookDone else HookTimedOut, w4)
  end.
Proof.
  unfold run_hook, begin, transaction. 
  change (request w) with
    (length (promises w), length (scopes w),
     with_scopes (scopes w ++ [Scope Requested [] false (length (promises w))])
       (with_promises (Root Pending :: promises w) (unhandled w) w)).
  cbn iota beta.
  unfold rejected_in, rejected, promise_catch, alloc. cbn iota beta.
  unfold run_jobs, start_transaction, begin_container.
  fold (entered w).
  assert (E : open_scope (length (scopes w)) (length (promises w))
            (with_promises
               (Catch (length (promises w)) (fun err => Return err)
                :: promises
                     (with_scopes
                        (scopes w ++ [Scope Requested [] false (length (promises w))])
                        (with_promises (Root Pending :: promises w) (unhandled w) w)))
               (unhandled
                  (with_scopes
                     (scopes w ++ [Scope Requested [] false (length (promises w))])
                     (with_promises (Root Pending :: promises w) (unhandled w) w)))
               (with_scopes
                  (scopes w ++ [Scope Requested [] false (length (promises w))])
                  (with_promises (Root Pending :: promises w) (unhandled w) w)))
            = entered w) by reflexivity.
  simpl dones at 1.
  rewrite E.
  destruct (setup (Trx (length (scopes w))) (entered w)) as [w3|e w3];
    cbn zeta; match goal with |- context [(?a <? ?b)%nat] => destruct (a <? b)%nat end;
    reflexivity.
Qed.

(** A statement sent through the open transaction of a test. *)
Lemma exec_in_scope {A : Type} w0 n p view failed seq evs s
    (q : tstate -> qresult A * tstate) :
  n < length (scopes w0) ->
  exec (Trx n) s q (in_scope w0 n p view failed seq evs) =
  if failed
  then (QErr "current transaction is aborted",
        in_scope w0 n p view failed seq (evs ++ [EvSql (Trx n) s]))
  else (fst (q (TState view seq)),
        in_scope w0 n p (t_rows (snd (q (TState view seq))))
                 (is_err (fst (q (TState view seq))))
                 (t_seq (snd (q (TState view seq))))
                 (evs ++ [EvSql (Trx n) s])).
Proof.
  intros Hn. unfold exec, in_scope. cbn [scopes].
  rewrite list_lookup_insert_eq by exact Hn.
  cbn [sc_state sc_failed sc_view sc_lifetime].
  rewrite bool_decide_eq_true_2 by reflexivity. cbn [negb].
  destruct failed.
  - unfold emit. cbn. now rewrite <- app_assoc.
  - unfold items_state. cbn [pg items_seq].
    destruct (q (TState view seq)) as [r t]. cbn [fst snd].
    unfold store_items, with_pg, with_scopes, emit. cbn.
    rewrite list_insert_insert_eq, <- app_assoc.
    destruct r; reflexivity.
Qed.

Lemma during_step w0 n p view failed seq evs evs' :
  Forall (dml_on n) evs -> Forall (dml_on n) evs' ->
  during w0 n p (in_scope w0 n p view failed seq (evs ++ evs')).
Proof.
  intros H1 H2. exists view, failed, seq, (evs ++ evs').
  split; [reflexivity|]. apply Forall_app. auto.
Qed.

Lemma exec_during {A : Type} w0 n p w s (q : tstate -> qresult A * tstate) :
  n < length (scopes w0) -> is_dml s = true ->
  during w0 n p w -> during w0 n p (snd (exec (Trx n) s q w)).
Proof.
  intros Hn Hs (view & failed & seq & evs & -> & Hevs).
  rewrite exec_in_scope by exact Hn.
  assert (He : Forall (dml_on n) [EvSql (Trx n) s]).
  { repeat constructor. exists s. auto. }
  destruct failed; cbn [snd]; apply during_step; assumption.
Qed.

Lemma during_items w0 n p w :
  during w0 n p w -> var_items w = var_items w0.
Proof. intros (view & failed & seq & evs & -> & _). reflexivity. Qed.

(** Whatever the body calls, the world stays in the scope. *)
Lemma perform_during w0 n p w c :
  n < length (scopes w0) -> var_items w0 = Some (Trx n) ->
  during w0 n p w -> during w0 n p (snd (perform c w)).
Proof.
  intros Hn Hv Hw. unfold perform.
  rewrite (during_items _ _ _ _ Hw), Hv.
  destruct c as [|i|item|i props|i]; cbn [itemsData find findById create updateById deleteById].
  - unfold find_, answer.
    pose proof (exec_during w0 n p w SSelectAll select_all Hn eq_refl Hw) as H.
    destruct (exec (Trx n) SSelectAll select_all w) as [[a|m] w1]; exact H.
  - unfold findById_, answer.
    pose proof (exec_during w0 n p w (SSelectById i) (select_by_id i) Hn eq_refl Hw) as H.
    destruct (exec (Trx n) (SSelectById i) (select_by_id i) w) as [[a|m] w1]; exact H.
  - unfold create_.
    pose proof (exec_during w0 n p w (SInsert item) (insert_returning item) Hn eq_refl Hw) as H.
    destruct (exec (Trx n) (SInsert item) (insert_returning item) w) as [[ids|m] w1];
      cbn [snd] in H; [|exact H].
    destruct (first_of ids) as [|b|i|r|rs|m]; try exact H.
    unfold findById_, answer.
    pose proof (exec_during w0 n p w1 (SSelectById i) (select_by_id i) Hn eq_refl H) as H'.
    destruct (exec (Trx n) (SSelectById i) (select_by_id i) w1) as [[a|m] w2]; exact H'.
  - unfold updateById_.
    pose proof (exec_during w0 n p w (SUpdate i props) (update_where i props) Hn eq_refl Hw) as H.
    destruct (exec (Trx n) (SUpdate i props) (update_where i props) w) as [[k|m] w1];
      cbn [snd] in H; [|exact H].
    unfold findById_, answer.
    pose proof (exec_during w0 n p w1 (SSelectById i) (select_by_id i) Hn eq_refl H) as H'.
    destruct (exec (Trx n) (SSelectById i) (select_by_id i) w1) as [[a|m] w2]; exact H'.
  - unfold deleteById_.
    pose proof (exec_during w0 n p w (SDelete i) (delete_returning i) Hn eq_refl Hw) as H.
    destruct (exec (Trx n) (SDelete i) (delete_returning i) w) as [[ids|m] w1]; exact H.
Qed.

Lemma run_script_during w0 n p s :
  n < length (scopes w0) -> var_items w0 = Some (Trx n) ->
  forall w, during w0 n p w -> during w0 n p (snd (run_script s w)).
Proof.
  intros Hn Hv. induction s as [| |c k IH]; intros w Hw; cbn [run_script].
  - exact Hw.
  - exact Hw.
  - pose proof (perform_during w0 n p w c Hn Hv Hw) as H.
    destruct (perform c w) as [o w1]. cbn [snd] in H.
    specialize (IH o w1 H).
    destruct (run_script (k o) w1) as [r w2]. exact IH.
Qed.

(** The teardown of a test whose transaction is open. *)
Lemma after_each_in_scope w0 n p view failed seq evs :
  n < length (scopes w0) -> var_trx w0 = Some (Trx n) ->
  after_each (in_scope w0 n p view failed seq evs) =
  Normal
    (World (Database (items_rows (pg w0)) seq (others (pg w0)))
           (<[n := Scope RolledBack view failed p]> (scopes w0))
           (settle p (Rejected VUndef) (promises w0))
           (unhandled w0 ++
            filter (fun q => q ∉ unhandled w0)
              (unhandled_rejections (settle p (Rejected VUndef) (promises w0))))
           (log w0 ++ evs ++ [EvSql (Trx n) SRollback])
           (dones w0) (destroyed w0) (var_trx w0) (var_items w0)).
Proof.
  intros Hn Hv. unfold after_each, in_scope. cbn [var_trx]. rewrite Hv.
  unfold rollback. cbn [scopes].
  rewrite list_lookup_insert_eq by exact Hn. cbn [sc_state sc_lifetime].
  rewrite bool_decide_eq_true_2 by reflexivity.
  unfold set_scope_state, emit. cbn [scopes].
  rewrite list_lookup_insert_eq by exact Hn.
  unfold settle_in, with_scopes, with_promises. cbn.
  now rewrite list_insert_insert_eq, <- app_assoc.
Qed.

Lemma body_world_eq w :
  body_world w =
  World (pg w)
        (scopes w ++ [Scope Open (items_rows (pg w)) false (length (promises w))])
        (Catch (length (promises w)) (fun err => Return err)
           :: Root Pending :: promises w)
        (unhandled w)
        (log w ++ [EvSql (Trx (length (scopes w))) SBegin; EvDone; EvBody])
        (S (dones w)) (destroyed w)
        (Some (Trx (length (scopes w)))) (Some (Trx (length (scopes w)))).
Proof.
  unfold body_world. rewrite entered_eq.
  unfold emit, mocha_done, with_vars, with_dones, emit. cbn.
  now rewrite <- !app_assoc.
Qed.

Lemma body_world_in_scope w :
  body_world w =
  in_scope (body_world w) (length (scopes w)) (length (promises w))
           (items_rows (pg w)) false (items_seq (pg w)) [].
Proof.
  rewrite body_world_eq at 1. unfold in_scope.
  rewrite body_world_eq. cbn.
  now rewrite insert_last, app_nil_r, database_eta.
Qed.

Lemma run_test_started bd w :
  run_test (Test Started bd) w = run_body bd (mocha_done
    (with_vars (Some (Trx (length (scopes w)))) (Some (Trx (length (scopes w))))
       (entered w))).
Proof.
  unfold run_test, run_test_with. cbn [env body].
  rewrite run_hook_started. unfold setup_items.
  assert (E : (dones w <? dones (mocha_done
            (with_vars (Some (Trx (length (scopes w))))
               (Some (Trx (length (scopes w)))) (entered w))))%nat = true).
  { apply Nat.ltb_lt. rewrite entered_eq. cbn. lia. }
  now rewrite E.
Qed.

Lemma settle_fresh p s st h :
  p = length st ->
  settle p s (Catch p h :: Root Pending :: st) = Catch p h :: Root s :: st.
Proof.
  intros ->. cbn [settle length].
  rewrite bool_decide_eq_false_2 by lia.
  now rewrite bool_decide_eq_true_2.
Qed.

(** A whole test whose transaction starts, in closed form. *)
Lemma test_started bd w :
  exists view failed seq evs,
    run_test (Test Started bd) w =
    (Ran (fst (run_script bd (body_world w))),
     World (Database (items_rows (pg w)) seq (others (pg w)))
           (scopes w ++ [Scope RolledBack view failed (length (promises w))])
           (Catch (length (promises w)) (fun err => Return err)
              :: Root (Rejected VUndef) :: promises w)
           (unhandled w ++
            filter (fun q => q ∉ unhandled w)
              (unhandled_rejections
                 (Catch (length (promises w)) (fun err => Return err)
                    :: Root (Rejected VUndef) :: promises w)))
           (log w ++ [EvSql (Trx (length (scopes w))) SBegin; EvDone; EvBody]
              ++ evs ++ [EvSql (Trx (length (scopes w))) SRollback])
           (S (dones w)) (destroyed w)
           (Some (Trx (length (scopes w)))) (Some (Trx (length (scopes w)))))
    /\ Forall (dml_on (length (scopes w))) evs.
Proof.
  rewrite run_test_started. unfold run_body. fold (body_world w).
  assert (Hn : length (scopes w) < length (scopes (body_world w))).
  { rewrite body_world_eq. cbn. rewrite length_app. cbn. lia. }
  assert (Hi : var_items (body_world w) = Some (Trx (length (scopes w)))).
  { now rewrite body_world_eq. }
  assert (Ht : var_trx (body_world w) = Some (Trx (length (scopes w)))).
  { now rewrite body_world_eq. }
  assert (Hd : during (body_world w) (length (scopes w)) (length (promises w))
                 (body_world w)).
  { exists (items_rows (pg w)), false, (items_seq (pg w)), [].
    split; [apply body_world_in_scope|constructor]. }
  pose proof (run_script_during _ _ _ bd Hn Hi _ Hd) as H.
  destruct (run_script bd (body_world w)) as [r w2]. cbn [fst snd] in *.
  destruct H as (view & failed & seq & evs & -> & Hevs).
  exists view, failed, seq, evs. split; [|exact Hevs].
  rewrite after_each_in_scope by assumption.
  rewrite body_world_eq.
  cbn [pg scopes promises unhandled log dones destroyed var_trx var_items
       items_rows others].
  rewrite insert_last, settle_fresh by reflexivity.
  now rewrite <- app_assoc.
Qed.

(** The [beforeEach] hook when the transaction does not start:
    whatever [setup] is, it is not called, and neither is [done]. *)
Lemma run_hook_start_failed setup e w :
  run_hook (begin setup) (StartFailed e) w =
  (HookTimedOut,
   World (pg w)
         (scopes w ++ [Scope Aborted [] false (length (promises w))])
         (Catch (length (promises w)) (fun err => Return err)
            :: Root (Rejected e) :: promises w)
         (unhandled w ++
          filter (fun q => q ∉ unhandled w)
            (unhandled_rejections
               (Catch (length (promises w)) (fun err => Return err)
                  :: Root (Rejected e) :: promises w)))
         (log w) (dones w) (destroyed w) (var_trx w) (var_items w)).
Proof.
  unfold run_hook, begin, transaction, request, alloc, rejected_in, rejected,
    promise_catch, alloc.
  cbn [promises with_scopes with_promises unhandled scopes pg log dones
       destroyed var_trx var_items run_jobs start_transaction].
  unfold set_scope_state.
  cbn [promises with_scopes with_promises unhandled scopes pg log dones
       destroyed var_trx var_items].
  rewrite lookup_last.
  cbn [sc_view sc_failed sc_lifetime].
  unfold settle_in.
  cbn [promises with_scopes with_promises unhandled scopes pg log dones
       destroyed var_trx var_items].
  rewrite insert_last, settle_fresh by reflexivity.
  now rewrite Nat.ltb_irrefl.
Qed.

Lemma seed_tables_eq d : seed_tables d = Some (seed_names d).
Proof.
  unfold seed_tables, pg_tables.
  rewrite filter_cons.
  rewrite decide_True by (split; reflexivity).
  reflexivity.
Qed.

(** The seed through a pool that is alive. *)
Lemma seed_live w :
  destroyed w = false ->
  seed w =
  (Resolved VUndef,
   World (Database baseline 4
            (map (truncate_relation (seed_names (pg w))) (others (pg w))))
         (scopes w) (promises w) (unhandled w)
         (log w ++ [EvSql Pool SSelectTables;
                    EvSql Pool (STruncate (seed_names (pg w)));
                    EvSql Pool (SInsertRows seed_items)])
         (dones w) false (var_trx w) (var_items w)).
Proof.
  intros Hd. unfold seed, exec_raw. rewrite Hd.
  rewrite seed_tables_eq.
  cbn [emit with_pg pg log scopes promises unhandled dones destroyed var_trx
       var_items].
  rewrite Hd.
  unfold truncate_restart.
  rewrite bool_decide_eq_true_2 by (unfold seed_names; apply elem_of_cons; now left).
  unfold exec.
  cbn [emit with_pg pg log scopes promises unhandled dones destroyed var_trx
       var_items].
  rewrite Hd.
  unfold items_state.
  cbn [emit with_pg pg log scopes promises unhandled dones destroyed var_trx
       var_items items_rows items_seq others].
  change (insert_rows seed_items (TState [] 1)) with (QOk tt, TState baseline 4).
  unfold store_items, with_pg, emit.
  cbn [pg log scopes promises unhandled dones destroyed var_trx var_items others
       t_rows t_seq].
  rewrite Hd. now rewrite <- !app_assoc.
Qed.

(** The seed at the start of a run, its truncate taken to name the
    tables whose names it read (see [seed]). *)
Lemma seed_run_boot d :
  seed_run (boot d) =
  (Resolved VUndef,
   World (Database baseline 4 (map (truncate_relation (seed_names d)) (others d)))
         [] [] []
         [EvSeedRun; EvSql Pool SSelectTables; EvSql Pool (STruncate (seed_names d));
          EvSql Pool (SInsertRows seed_items)]
         0 false None None).
Proof.
  unfold seed_run, boot. cbn [destroyed].
  rewrite seed_live by reflexivity. reflexivity.
Qed.

Lemma after_each_closed w :
  Forall closed (scopes w) ->
  after_each w = Normal w \/ exists e, after_each w = Abrupt e w.
Proof.
  intros Hc. unfold after_each.
  destruct (var_trx w) as [[|n]|]; [right; eauto| |right; eauto].
  unfold rollback.
  destruct (scopes w !! n) as [sc|] eqn:E; [|left; reflexivity].
  rewrite bool_decide_eq_false_2; [left; reflexivity|].
  pose proof (proj1 (Forall_lookup _ _) Hc n sc E) as [H|H]; rewrite H; discriminate.
Qed.

End WorldFacts.

(* ===================================================================== *)
(** * The state of the suite between tests *)
(* ===================================================================== *)
Section Steady.

Lemma dml_calm n e :
  dml_on n e -> is_seed_run e = false /\ is_commit e = false /\ is_begin e = false.
Proof. intros (s & -> & Hs). destruct s; try discriminate Hs; auto. Qed.

Lemma seeded_eq d :
  seeded d =
  World (Database baseline 4 (map (truncate_relation (seed_names d)) (others d)))
        [] [] []
        [EvSeedRun; EvSql Pool SSelectTables; EvSql Pool (STruncate (seed_names d));
         EvSql Pool (SInsertRows seed_items)]
        0 false None None.
Proof. unfold seeded. now rewrite seed_run_boot. Qed.

Lemma seeded_steady d : steady (seeded d).
Proof.
  rewrite seeded_eq. constructor; cbn; try reflexivity.
  - constructor.
  - constructor.
  - eexists. split; [reflexivity|]. repeat constructor.
  - intros n Hn. exfalso.
    repeat (apply elem_of_cons in Hn as [Hn|Hn]; [discriminate Hn|]).
    inversion Hn.
Qed.

Lemma started_steady bd w :
  steady w -> steady (snd (run_test (Test Started bd) w)).
Proof.
  intros [Hrows Hpair Hun Hcl (rest & Hlog & Hrest) Hrol Hal].
  destruct (test_started bd w) as (view & failed & seq & evs & -> & Hevs).
  cbn [snd]. constructor;
    cbn [pg scopes promises unhandled log dones destroyed items_rows].
  - exact Hrows.
  - constructor. exact Hpair.
  - rewrite Hun, paired_no_unhandled by (constructor; exact Hpair). reflexivity.
  - apply Forall_app. split; [exact Hcl|].
    apply Forall_cons. split; [now left|constructor].
  - exists (rest ++ [EvSql (Trx (length (scopes w))) SBegin; EvDone; EvBody]
              ++ evs ++ [EvSql (Trx (length (scopes w))) SRollback]).
    split; [now rewrite Hlog|].
    apply Forall_app. split; [exact Hrest|].
    repeat (apply Forall_cons; split; [auto|]).
    apply Forall_app. split; [|repeat constructor].
    eapply Forall_impl; [exact Hevs|].
    intros e He. destruct (dml_calm _ _ He) as (? & ? & ?). auto.
  - intros m Hm.
    apply elem_of_app in Hm as [Hm|Hm].
    + destruct (Hrol m Hm) as (Hr & sc & Hsc & Hst). split.
      * apply elem_of_app. now left.
      * exists sc. split; [|exact Hst].
        rewrite lookup_app_l; [exact Hsc|]. eapply lookup_lt_Some; exact Hsc.
    + assert (Hmn : m = length (scopes w)).
      { apply elem_of_cons in Hm as [Hm|Hm]; [now inversion Hm|].
        apply elem_of_cons in Hm as [Hm|Hm]; [discriminate Hm|].
        apply elem_of_cons in Hm as [Hm|Hm]; [discriminate Hm|].
        apply elem_of_app in Hm as [Hm|Hm].
        - pose proof (proj1 (Forall_forall _ _) Hevs _ Hm) as Hd.
          destruct (dml_calm _ _ Hd) as (_ & _ & Hb). discriminate Hb.
        - apply list_elem_of_singleton in Hm. discriminate Hm. }
      subst m. split.
      * apply elem_of_app. right.
        do 3 (apply elem_of_cons; right).
        apply elem_of_app. right. now apply list_elem_of_singleton.
      * eexists. split; [apply lookup_last|reflexivity].
  - exact Hal.
Qed.

Lemma start_failed_steady e bd w :
  steady w -> steady (snd (run_test (Test (StartFailed e) bd) w)).
Proof.
  intros [Hrows Hpair Hun Hcl (rest & Hlog & Hrest) Hrol Hal].
  unfold run_test, run_test_with. cbn [env].
  rewrite run_hook_start_failed.
  match goal with |- context [after_each ?W] => set (w1 := W) end.
  assert (Hs : steady w1).
  { subst w1. constructor;
      cbn [pg scopes promises unhandled log dones destroyed items_rows].
    - exact Hrows.
    - constructor. exact Hpair.
    - rewrite Hun, paired_no_unhandled by (constructor; exact Hpair). reflexivity.
    - apply Forall_app. split; [exact Hcl|].
      apply Forall_cons. split; [now right|constructor].
    - exists rest. auto.
    - intros m Hm. destruct (Hrol m Hm) as (Hr & sc & Hsc & Hst).
      split; [exact Hr|]. exists sc. split; [|exact Hst].
      rewrite lookup_app_l; [exact Hsc|]. eapply lookup_lt_Some; exact Hsc.
    - exact Hal. }
  destruct (after_each_closed w1 (steady_closed _ Hs)) as [->|(e' & ->)];
    exact Hs.
Qed.

Lemma run_test_steady t w : steady w -> steady (snd (run_test t w)).
Proof.
  destruct t as [[|e] bd]; [apply started_steady|apply start_failed_steady].
Qed.

Lemma run_tests_steady ts : forall w, steady w -> steady (snd (run_tests ts w)).
Proof.
  induction ts as [|t ts IH]; intros w Hw; cbn [run_tests]; [exact Hw|].
  pose proof (run_test_steady t w Hw) as H.
  destruct (run_test t w) as [[r|h|r e] w1]; cbn [snd] in H; try exact H.
  specialize (IH w1 H).
  destruct (run_tests ts w1) as [rs w2]. exact IH.
Qed.

Lemma run_suite_eq ts d :
  run_suite ts (boot d) =
  (fst (run_tests ts (seeded d)), destroy (snd (run_tests ts (seeded d)))).
Proof.
  unfold run_suite, seeded. rewrite seed_run_boot. cbn [snd].
  now destruct (run_tests ts _).
Qed.

End Steady.

(* ===================================================================== *)
(** * rejected *)
(* ===================================================================== *)
Section Rejected.

(** C10. For every promise [p] of the store, [rejected(p)] never
    rejects, however the store evolves afterwards: when [p] is fulfilled
    with [v] so is [rejected(p)], and when [p] is rejected with [e] then
    [rejected(p)] is fulfilled with [e]. *)
Theorem rejected_never_rejects (st : store) (p : pid) (st2 : store) :
  p < length st ->
  evolves (snd (rejected p st)) st2 ->
  (forall v, state_of st2 p = Fulfilled v ->
             state_of st2 (fst (rejected p st)) = Fulfilled v)
  /\ (forall e, state_of st2 p = Rejected e ->
                state_of st2 (fst (rejected p st)) = Fulfilled e)
  /\ (forall e, state_of st2 (fst (rejected p st)) <> Rejected e).
Proof.
  intros Hp Hev. unfold rejected, promise_catch, alloc in *. cbn [fst snd] in *.
  destruct (evolves_keeps_catch _ _ _ _ Hev) as (ext & st' & -> & Hlen).
  rewrite <- Hlen, state_of_here.
  replace (state_of (ext ++ Catch p (fun err => Return err) :: st') p)
    with (state_of st' p).
  2:{ change (ext ++ Catch p (fun err => Return err) :: st')
        with (ext ++ [Catch p (fun err => Return err)] ++ st').
      rewrite app_assoc. symmetry. apply state_of_older. lia. }
  destruct (state_of st' p) as [|v|e]; cbn [catch_settled];
    repeat split; intros; congruence.
Qed.

Lemma rejected_never_rejects_witness :
  state_of (settle 0 (Rejected (VErr "boom")) (snd (rejected 0 [Root Pending])))
           (fst (rejected 0 [Root Pending]))
  = Fulfilled (VErr "boom").
Proof.
  apply (proj1 (proj2 (rejected_never_rejects [Root Pending] 0 _
           ltac:(simpl; lia) (evolves_settle _ _ _ _ (evolves_refl _))))).
  reflexivity.
Defined.

End Rejected.

(* ===================================================================== *)
(** * begin *)
(* ===================================================================== *)
Section Begin.

(** C2. When the transaction has started and [setup] returns, the hook
    returned by [begin(setup)] has called [setup] with the handle of the
    open transaction and then [done], with nothing in between; the body
    of the test starts after that; and the lifetime promise is pending
    when [setup] is called and, with the setup of the test file, still
    pending when [done] has been called. *)
Theorem setup_then_done (setup : handle -> world -> completion) (w w3 : world) :
  setup (Trx (length (scopes w))) (entered w) = Normal w3 ->
  dones w3 = dones (entered w) ->
  run_hook (begin setup) Started w = (HookDone, mocha_done w3)
  /\ (forall bd, run_test_with (begin setup) (Test Started bd) w
                 = run_body bd (mocha_done w3))
  /\ log (emit EvBody (mocha_done w3)) = log w3 ++ [EvDone; EvBody]
  /\ scopes (entered w) !! length (scopes w)
     = Some (Scope Open (items_rows (pg w)) false (length (promises w)))
  /\ log (entered w) = log w ++ [EvSql (Trx (length (scopes w))) SBegin]
  /\ state_of (promises (entered w)) (length (promises w)) = Pending
  /\ state_of (promises (mocha_done w3)) (length (promises w))
     = state_of (promises w3) (length (promises w))
  /\ state_of (promises (snd (run_hook (begin setup_items) Started w)))
              (length (promises w)) = Pending.
Proof.
  intros Hs Hd.
  assert (Hh : run_hook (begin setup) Started w = (HookDone, mocha_done w3)).
  { rewrite run_hook_started, Hs.
    replace (dones w <? dones (mocha_done w3))%nat with true; [reflexivity|].
    symmetry. apply Nat.ltb_lt. cbn. rewrite Hd, entered_eq. cbn. lia. }
  split; [exact Hh|].
  split; [intros bd; unfold run_test_with; cbn [env]; now rewrite Hh|].
  split; [cbn; now rewrite <- app_assoc|].
  rewrite entered_eq. cbn [scopes log promises].
  split; [apply lookup_last|].
  split; [reflexivity|].
  assert (Hp : state_of (Catch (length (promises w)) (fun err => Return err)
                           :: Root Pending :: promises w) (length (promises w))
               = Pending).
  { cbn [state_of length].
    rewrite bool_decide_eq_false_2 by lia.
    now rewrite bool_decide_eq_true_2. }
  split; [exact Hp|].
  split; [reflexivity|].
  rewrite run_hook_started. unfold setup_items.
  match goal with |- context [(?a <? ?b)%nat] => destruct (a <? b)%nat end;
    cbn [snd]; rewrite entered_eq; exact Hp.
Qed.

Lemma setup_then_done_witness :
  run_hook (begin setup_items) Started (boot (Database [] 1 []))
  = (HookDone,
     mocha_done (with_vars (Some (Trx 0)) (Some (Trx 0))
                   (entered (boot (Database [] 1 []))))).
Proof.
  apply (proj1 (setup_then_done setup_items (boot (Database [] 1 []))
                  (with_vars (Some (Trx 0)) (Some (Trx 0))
                     (entered (boot (Database [] 1 []))))
                  eq_refl eq_refl)).
Defined.

(** C4, as the code has it. When [setup] throws (leaving the
    transaction, the promises and [done] alone), the hook has already
    returned normally; [done] is never called, so the hook ends by
    mocha's timeout; the transaction catches the exception, rolls back,
    and rejects its lifetime promise with it, and [rejected] turns that
    rejection into a fulfilment: the exception takes the same path as
    every rejection of the transaction. *)
Theorem setup_failure_rolls_back (setup : handle -> world -> completion)
    (w w3 : world) (e : value) :
  setup (Trx (length (scopes w))) (entered w) = Abrupt e w3 ->
  scopes w3 = scopes (entered w) ->
  promises w3 = promises (entered w) ->
  dones w3 = dones (entered w) ->
  (exists w2 js, begin setup mocha_done w = (Normal w2, js))
  /\ fst (run_hook (begin setup) Started w) = HookTimedOut
  /\ dones (snd (run_hook (begin setup) Started w)) = dones w
  /\ log (snd (run_hook (begin setup) Started w))
     = log w3 ++ [EvSql (Trx (length (scopes w))) SRollback]
  /\ scopes (snd (run_hook (begin setup) Started w)) !! length (scopes w)
     = Some (Scope RolledBack (items_rows (pg w)) false (length (promises w)))
  /\ state_of (promises (snd (run_hook (begin setup) Started w)))
              (length (promises w)) = Rejected e
  /\ state_of (promises (snd (run_hook (begin setup) Started w)))
              (S (length (promises w))) = Fulfilled e
  /\ handled (promises (snd (run_hook (begin setup) Started w)))
             (length (promises w)) = true.
Proof.
  intros Hs Hsc Hpr Hd.
  split.
  { unfold begin, transaction, request, alloc, rejected_in, rejected,
      promise_catch, alloc. cbn. eauto. }
  rewrite run_hook_started, Hs.
  assert (Hl : scopes w3 !! length (scopes w)
               = Some (Scope Open (items_rows (pg w)) false (length (promises w)))).
  { rewrite Hsc, entered_eq. cbn [scopes]. apply lookup_last. }
  unfold rollback. rewrite Hl. cbn [sc_state sc_lifetime].
  rewrite bool_decide_eq_true_2 by reflexivity.
  unfold set_scope_state, emit. cbn [scopes]. rewrite Hl.
  unfold settle_in, with_scopes, with_promises.
  cbn [scopes promises unhandled log dones pg destroyed var_trx var_items
       sc_view sc_failed sc_lifetime snd fst].
  rewrite Hpr, Hsc, Hd, entered_eq.
  cbn [scopes promises unhandled log dones pg destroyed var_trx var_items].
  rewrite insert_last, settle_fresh by reflexivity.
  rewrite Nat.ltb_irrefl. cbn [fst snd].
  repeat split.
  - apply lookup_last.
  - cbn [state_of length].
    rewrite bool_decide_eq_false_2 by lia.
    now rewrite bool_decide_eq_true_2.
  - cbn [state_of length].
    rewrite bool_decide_eq_true_2 by reflexivity.
    rewrite bool_decide_eq_true_2 by reflexivity. reflexivity.
  - unfold handled. cbn [existsb].
    now rewrite bool_decide_eq_true_2.
Qed.

Lemma setup_failure_rolls_back_witness :
  fst (run_hook (begin (failing_setup (VErr "boom"))) Started
         (boot (Database [] 1 []))) = HookTimedOut.
Proof.
  apply (proj1 (proj2 (setup_failure_rolls_back (failing_setup (VErr "boom"))
                         (boot (Database [] 1 []))
                         (entered (boot (Database [] 1 [])))
                         (VErr "boom") eq_refl eq_refl eq_refl eq_refl))).
Defined.

(** C4 as stated fails: a [setup] that throws does not make the hook
    throw; the hook is left waiting, and the error ends as the value of
    the promise [rejected] returned. *)
Lemma setup_failure_not_propagated :
  let w := boot (Database [] 1 []) in
  let setup := failing_setup (VErr "boom") in
  setup (Trx 0) (entered w) = Abrupt (VErr "boom") (entered w)
  /\ ~ (exists w', run_hook (begin setup) Started w = (HookThrew (VErr "boom"), w'))
  /\ fst (run_hook (begin setup) Started w) = HookTimedOut
  /\ state_of (promises (snd (run_hook (begin setup) Started w))) 1
     = Fulfilled (VErr "boom")
  /\ unhandled (snd (run_hook (begin setup) Started w)) = [].
Proof.
  cbn zeta. split; [reflexivity|].
  split; [intros (w' & H); vm_compute in H; discriminate H|].
  split; [reflexivity|]. split; reflexivity.
Qed.

(** C5, as the code has it. When the transaction does not start,
    whatever [setup] is: the hook returns normally, neither [setup] nor
    [done] is called and nothing is sent, so the hook ends by mocha's
    timeout and the body of the test does not run; the lifetime promise
    is rejected with the failure, which [rejected] turns into a
    fulfilment; the transaction is marked as never started. *)
Theorem start_failure_leaves_hook_waiting (setup : handle -> world -> completion)
    (e : value) (w : world) (bd : script) :
  (exists w2 js, begin setup mocha_done w = (Normal w2, js))
  /\ fst (run_hook (begin setup) (StartFailed e) w) = HookTimedOut
  /\ dones (snd (run_hook (begin setup) (StartFailed e) w)) = dones w
  /\ log (snd (run_hook (begin setup) (StartFailed e) w)) = log w
  /\ var_trx (snd (run_hook (begin setup) (StartFailed e) w)) = var_trx w
  /\ var_items (snd (run_hook (begin setup) (StartFailed e) w)) = var_items w
  /\ scopes (snd (run_hook (begin setup) (StartFailed e) w)) !! length (scopes w)
     = Some (Scope Aborted [] false (length (promises w)))
  /\ state_of (promises (snd (run_hook (begin setup) (StartFailed e) w)))
              (length (promises w)) = Rejected e
  /\ state_of (promises (snd (run_hook (begin setup) (StartFailed e) w)))
              (S (length (promises w))) = Fulfilled e
  /\ handled (promises (snd (run_hook (begin setup) (StartFailed e) w)))
             (length (promises w)) = true
  /\ fst (run_test_with (begin setup) (Test (StartFailed e) bd) w)
     = BeforeEachFailed HookTimedOut.
Proof.
  split.
  { unfold begin, transaction, request, alloc, rejected_in, rejected,
      promise_catch, alloc. cbn. eauto. }
  unfold run_test_with. cbn [env].
  rewrite run_hook_start_failed.
  cbn [fst snd scopes promises unhandled log dones pg destroyed var_trx var_items].
  repeat split.
  - apply lookup_last.
  - cbn [state_of length].
    rewrite bool_decide_eq_false_2 by lia.
    now rewrite bool_decide_eq_true_2.
  - cbn [state_of length].
    rewrite bool_decide_eq_true_2 by reflexivity.
    rewrite bool_decide_eq_true_2 by reflexivity. reflexivity.
  - unfold handled. cbn [existsb].
    now rewrite bool_decide_eq_true_2.
  - match goal with |- context [after_each ?W] => destruct (after_each W) end;
      reflexivity.
Qed.

(** C5 as stated fails: when the transaction does not start, [done] is
    not called and the hook does not signal success. *)
Lemma start_failure_not_signalled :
  let w := boot (Database [] 1 []) in
  let e := VErr "pool exhausted" in
  fst (run_hook (begin setup_items) (StartFailed e) w) <> HookDone
  /\ dones (snd (run_hook (begin setup_items) (StartFailed e) w)) = 0
  /\ EvDone ∉ log (snd (run_hook (begin setup_items) (StartFailed e) w)).
Proof.
  cbn zeta. split; [vm_compute; discriminate|].
  split; [reflexivity|].
  vm_compute. intros H. inversion H.
Qed.

End Begin.

(* ===================================================================== *)
(** * Suites in which every transaction starts *)
(* ===================================================================== *)
Section Scoped.

Lemma run_tests_scoped_cons bd bodies w :
  run_tests (scoped (bd :: bodies)) w =
  (Ran (fst (run_script bd (body_world w)))
     :: fst (run_tests (scoped bodies) (snd (run_test (Test Started bd) w))),
   snd (run_tests (scoped bodies) (snd (run_test (Test Started bd) w)))).
Proof.
  cbn [scoped map run_tests]. fold (scoped bodies).
  destruct (test_started bd w) as (view & failed & seq & evs & -> & _).
  cbn [snd]. now destruct (run_tests (scoped bodies) _).
Qed.

Lemma run_tests_scoped_app pre post : forall w,
  run_tests (scoped (pre ++ post)) w =
  (fst (run_tests (scoped pre) w)
     ++ fst (run_tests (scoped post) (snd (run_tests (scoped pre) w))),
   snd (run_tests (scoped post) (snd (run_tests (scoped pre) w)))).
Proof.
  induction pre as [|bd pre IH]; intros w.
  - change (scoped ([] ++ post)) with (scoped post).
    change (run_tests (scoped []) w) with (@nil report, w).
    cbn [fst snd app]. now destruct (run_tests (scoped post) w).
  - rewrite <- app_comm_cons, !run_tests_scoped_cons, IH. reflexivity.
Qed.

Lemma run_tests_scoped_length bodies : forall w,
  length (fst (run_tests (scoped bodies) w)) = length bodies.
Proof.
  induction bodies as [|bd bodies IH]; intros w; [reflexivity|].
  rewrite run_tests_scoped_cons. cbn. now rewrite IH.
Qed.

Lemma run_tests_scoped_ran bodies : forall w,
  Forall (fun rep => exists r, rep = Ran r) (fst (run_tests (scoped bodies) w)).
Proof.
  induction bodies as [|bd bodies IH]; intros w; [constructor|].
  rewrite run_tests_scoped_cons. cbn [fst]. constructor; eauto.
Qed.

(** What a body sees first when it starts by reading the table. *)
Lemma perform_find_first w :
  fst (perform Find (body_world w)) = Resolved (VRows (items_rows (pg w))).
Proof.
  unfold perform.
  replace (var_items (body_world w)) with (Some (Trx (length (scopes w))))
    by now rewrite body_world_eq.
  cbn [itemsData find]. unfold find_.
  rewrite body_world_in_scope, exec_in_scope.
  - reflexivity.
  - rewrite body_world_eq. cbn. rewrite length_app. cbn. lia.
Qed.

(** What a body sees first when it starts by reading the table. *)
Lemma first_find k w :
  head (observed (fst (run_script (Await Find k) (body_world w))))
  = Some (Resolved (VRows (items_rows (pg w)))).
Proof.
  cbn [run_script].
  pose proof (perform_find_first w) as H.
  destruct (perform Find (body_world w)) as [o w1]. cbn [fst] in H. subst o.
  now destruct (run_script _ w1).
Qed.

End Scoped.

(* ===================================================================== *)
(** * The seed *)
(* ===================================================================== *)
Section Seed.












End Seed.

(* ===================================================================== *)
(** * Isolation *)
(* ===================================================================== *)
Section Isolation.

Lemma begun_app l1 l2 : begun (l1 ++ l2) = begun l1 ++ begun l2.
Proof.
  induction l1 as [|e l1 IH]; [reflexivity|].
  destruct e as [|[|n] []| | |]; cbn; now rewrite ?IH.
Qed.

Lemma begun_dml n evs : Forall (dml_on n) evs -> begun evs = [].
Proof.
  induction 1 as [|e evs (s & -> & Hs) _ IH]; [reflexivity|].
  destruct s; try discriminate Hs; exact IH.
Qed.

Lemma elem_of_begun n l : n ∈ begun l -> EvSql (Trx n) SBegin ∈ l.
Proof.
  induction l as [|e l IH]; cbn; [intros H; inversion H|].
  destruct e as [|[|m] []| | |]; cbn; intros H;
    try (apply elem_of_cons; right; now apply IH).
  apply elem_of_cons in H as [->|H]; apply elem_of_cons; [now left|right; auto].
Qed.

(** C1. In a suite whose tests all run in a scope opened by [begin],
    whatever the bodies do: after the teardown of every test (after any
    prefix [pre] of the suite) the committed rows of [items] are the
    seeded baseline and a query through [db] returns them, and a test
    placed anywhere in the suite that starts by reading the table sees
    exactly the baseline. *)
Theorem mutations_never_persist (d : database) (pre post : list script)
    (k : outcome -> script) :
  run_tests (scoped (pre ++ post)) (seeded d) =
    (fst (run_tests (scoped pre) (seeded d))
       ++ fst (run_tests (scoped post) (snd (run_tests (scoped pre) (seeded d)))),
     snd (run_tests (scoped post) (snd (run_tests (scoped pre) (seeded d)))))
  /\ length (fst (run_tests (scoped pre) (seeded d))) = length pre
  /\ items_rows (pg (snd (run_tests (scoped pre) (seeded d)))) = baseline
  /\ fst (find (itemsData Pool) (snd (run_tests (scoped pre) (seeded d))))
     = Resolved (VRows baseline)
  /\ exists r,
       fst (run_suite (scoped (pre ++ Await Find k :: post)) (boot d)) !! length pre
         = Some (Ran r)
       /\ head (observed r) = Some (Resolved (VRows baseline)).
Proof.
  pose proof (run_tests_steady (scoped pre) _ (seeded_steady d)) as Hs.
  split; [apply run_tests_scoped_app|].
  split; [apply run_tests_scoped_length|].
  split; [apply (steady_rows _ Hs)|].
  split.
  - cbn [itemsData find]. unfold find_, exec.
    rewrite (steady_alive _ Hs). cbn. now rewrite (steady_rows _ Hs).
  - rewrite run_suite_eq. cbn [fst].
    rewrite run_tests_scoped_app. cbn [fst].
    rewrite run_tests_scoped_cons. cbn [fst].
    eexists. split.
    + rewrite <- (run_tests_scoped_length pre (seeded d)).
      apply list_lookup_middle. reflexivity.
    + rewrite first_find. now rewrite (steady_rows _ Hs).
Qed.

(** C6. In every suite, whether its transactions start or not: no
    COMMIT is ever sent; at the end every transaction is rolled back or
    never started; every transaction for which BEGIN was sent has had
    its ROLLBACK sent and is rolled back; the committed rows are the
    baseline. When every transaction starts, there is one per test. *)
Theorem scopes_rolled_back_never_committed (d : database) (ts : list test)
    (bodies : list script) :
  Forall (fun e => is_commit e = false) (log (snd (run_suite ts (boot d))))
  /\ Forall closed (scopes (snd (run_suite ts (boot d))))
  /\ Forall (fun n =>
               EvSql (Trx n) SRollback ∈ log (snd (run_suite ts (boot d)))
               /\ exists sc, scopes (snd (run_suite ts (boot d))) !! n = Some sc
                             /\ sc_state sc = RolledBack)
            (begun (log (snd (run_suite ts (boot d)))))
  /\ items_rows (pg (snd (run_suite ts (boot d)))) = baseline
  /\ begun (log (snd (run_suite (scoped bodies) (boot d))))
     = seq 0 (length bodies).
Proof.
  rewrite !run_suite_eq. cbn [snd].
  pose proof (run_tests_steady ts _ (seeded_steady d)) as
    [Hrows Hpair Hun Hcl (rest & Hlog & Hrest) Hrol Hal].
  unfold destroy. cbn [log scopes pg emit with_destroyed].
  split.
  { rewrite Hlog. apply Forall_app. split; [|repeat constructor].
    apply Forall_cons. split; [reflexivity|].
    eapply Forall_impl; [exact Hrest|]. now intros e [_ ?]. }
  split; [exact Hcl|].
  split.
  { apply Forall_forall. intros n Hn.
    apply elem_of_begun, elem_of_app in Hn as [Hn|Hn].
    - destruct (Hrol n Hn) as (Hr & Hsc). split; [|exact Hsc].
      apply elem_of_app. now left.
    - apply list_elem_of_singleton in Hn. discriminate Hn. }
  split; [exact Hrows|].
  rewrite begun_app, app_nil_r.
  assert (H : forall bs w,
    begun (log (snd (run_tests (scoped bs) w)))
    = begun (log w) ++ seq (length (scopes w)) (length bs)).
  { induction bs as [|bd bs IH]; intros w.
    - cbn. now rewrite app_nil_r.
    - rewrite run_tests_scoped_cons. cbn [snd]. rewrite IH.
      destruct (test_started bd w) as (view & failed & sq & evs & -> & Hevs).
      cbn [snd log scopes].
      rewrite !begun_app, (begun_dml _ _ Hevs), length_app. cbn.
      rewrite <- app_assoc. cbn.
      now rewrite Nat.add_1_r. }
  rewrite H, seeded_eq. reflexivity.
Qed.

(** C3. In every suite no rejection is ever reported as unhandled, and
    at its end no rejected promise is without a handler. For the test
    that follows any tests run in scopes: its lifetime promise ends
    rejected (with [undefined] by the rollback of the teardown, with the
    failure when the transaction did not start), the promise [rejected]
    made of it ends fulfilled with that error, and nothing is reported;
    and the rollback does not fail the test, whose report is what its
    body did. *)
Theorem lifetime_rejections_swallowed (d : database) (ts : list test)
    (bodies : list script) (a : start) (bd : script) :
  unhandled (snd (run_suite ts (boot d))) = []
  /\ unhandled_rejections (promises (snd (run_suite ts (boot d)))) = []
  /\ state_of (promises (snd (run_test (Test a bd)
                                (snd (run_tests (scoped bodies) (seeded d))))))
              (length (promises (snd (run_tests (scoped bodies) (seeded d)))))
     = Rejected (lifetime_error a)
  /\ state_of (promises (snd (run_test (Test a bd)
                                (snd (run_tests (scoped bodies) (seeded d))))))
              (S (length (promises (snd (run_tests (scoped bodies) (seeded d))))))
     = Fulfilled (lifetime_error a)
  /\ unhandled (snd (run_test (Test a bd)
                       (snd (run_tests (scoped bodies) (seeded d))))) = []
  /\ fst (run_test (Test Started bd) (snd (run_tests (scoped bodies) (seeded d))))
     = Ran (fst (run_script bd
                   (body_world (snd (run_tests (scoped bodies) (seeded d)))))).
Proof.
  rewrite !run_suite_eq. cbn [snd].
  pose proof (run_tests_steady ts _ (seeded_steady d)) as Hs.
  split; [exact (steady_unhandled _ Hs)|].
  split; [exact (paired_no_unhandled _ (steady_paired _ Hs))|].
  pose proof (run_tests_steady (scoped bodies) _ (seeded_steady d)) as Hw.
  set (w := snd (run_tests (scoped bodies) (seeded d))) in *.
  assert (Hst : forall e,
    state_of (Catch (length (promises w)) (fun err => Return err)
                :: Root (Rejected e) :: promises w) (length (promises w))
    = Rejected e
    /\ state_of (Catch (length (promises w)) (fun err => Return err)
                   :: Root (Rejected e) :: promises w) (S (length (promises w)))
       = Fulfilled e).
  { intros e. cbn [state_of length].
    rewrite (bool_decide_eq_false_2 (length (promises w) = S (length (promises w))))
      by lia.
    rewrite !bool_decide_eq_true_2 by reflexivity. auto. }
  split; [|split; [|split]].
  4:{ destruct (test_started bd w) as (view & failed & sq & evs & -> & _).
      reflexivity. }
  3:{ exact (steady_unhandled _ (run_test_steady (Test a bd) w Hw)). }
  - destruct a as [|e].
    + destruct (test_started bd w) as (view & failed & sq & evs & -> & _).
      cbn [snd promises]. apply Hst.
    + unfold run_test, run_test_with. cbn [env].
      rewrite run_hook_start_failed.
      match goal with |- context [after_each ?W] =>
        assert (Hc : Forall closed (scopes W));
        [|destruct (after_each_closed W Hc) as [->|(e' & ->)]] end.
      * cbn [scopes]. apply Forall_app. split; [apply (steady_closed _ Hw)|].
        apply Forall_cons. split; [now right|constructor].
      * cbn [snd promises]. apply Hst.
      * cbn [snd promises]. apply Hst.
  - destruct a as [|e].
    + destruct (test_started bd w) as (view & failed & sq & evs & -> & _).
      cbn [snd promises]. apply Hst.
    + unfold run_test, run_test_with. cbn [env].
      rewrite run_hook_start_failed.
      match goal with |- context [after_each ?W] =>
        assert (Hc : Forall closed (scopes W));
        [|destruct (after_each_closed W Hc) as [->|(e' & ->)]] end.
      * cbn [scopes]. apply Forall_app. split; [apply (steady_closed _ Hw)|].
        apply Forall_cons. split; [now right|constructor].
      * cbn [snd promises]. apply Hst.
      * cbn [snd promises]. apply Hst.
Qed.

End Isolation.

(* ===================================================================== *)
(** * Running a test twice *)
(* ===================================================================== *)
Section Twice.

Lemma select_all_blind : blind select_all.
Proof. intros v s1 s2. auto. Qed.

Lemma select_by_id_blind i : blind (select_by_id i).
Proof. intros v s1 s2. auto. Qed.

Lemma update_where_blind i p : blind (update_where i p).
Proof.
  intros v s1 s2. unfold update_where. cbn [t_rows t_seq].
  destruct (no_fields p); [auto|]. destruct (keys_ok _); auto.
Qed.

Lemma delete_returning_blind i : blind (delete_returning i).
Proof. intros v s1 s2. auto. Qed.

Lemma insert_returning_blind it : f_id it <> None -> blind (insert_returning it).
Proof.
  intros Hid v s1 s2. unfold insert_returning. cbn [t_rows t_seq].
  destruct (f_id it) as [i|]; [|congruence].
  destruct (f_sku it) as [s|]; [|auto].
  destruct (keys_ok _); auto.
Qed.

Variables (W1 : world) (n1 : nat) (p1 : pid) (W2 : world) (n2 : nat) (p2 : pid).
Hypothesis Hn1 : n1 < length (scopes W1).
Hypothesis Hn2 : n2 < length (scopes W2).
Hypothesis Hv1 : var_items W1 = Some (Trx n1).
Hypothesis Hv2 : var_items W2 = Some (Trx n2).

Local Abbreviation same := (same_session W1 n1 p1 W2 n2 p2).

Lemma exec_same {A : Type} s (q : tstate -> qresult A * tstate) w1 w2 :
  blind q -> same w1 w2 ->
  fst (exec (Trx n1) s q w1) = fst (exec (Trx n2) s q w2)
  /\ same (snd (exec (Trx n1) s q w1)) (snd (exec (Trx n2) s q w2)).
Proof.
  intros Hq (view & failed & s1 & s2 & e1 & e2 & -> & ->).
  rewrite !exec_in_scope by assumption.
  destruct failed; cbn [fst snd].
  - split; [reflexivity|]. repeat eexists.
  - destruct (Hq view s1 s2) as [Hr Ht]. rewrite Hr, Ht.
    split; [reflexivity|]. repeat eexists.
Qed.

Lemma same_items w1 w2 :
  same w1 w2 -> var_items w1 = Some (Trx n1) /\ var_items w2 = Some (Trx n2).
Proof. intros (view & failed & s1 & s2 & e1 & e2 & -> & ->). auto. Qed.

Lemma findById_same i w1 w2 :
  same w1 w2 ->
  fst (findById_ (Trx n1) i w1) = fst (findById_ (Trx n2) i w2)
  /\ same (snd (findById_ (Trx n1) i w1)) (snd (findById_ (Trx n2) i w2)).
Proof.
  intros Hw. unfold findById_, answer.
  destruct (exec_same (SSelectById i) _ w1 w2 (select_by_id_blind i) Hw) as [Hr Hs].
  destruct (exec (Trx n1) _ _ w1) as [r1 w1'], (exec (Trx n2) _ _ w2) as [r2 w2'].
  cbn [fst snd] in *. subst r2. destruct r1; auto.
Qed.

Lemma perform_same c w1 w2 :
  sequence_free_call c -> same w1 w2 ->
  fst (perform c w1) = fst (perform c w2)
  /\ same (snd (perform c w1)) (snd (perform c w2)).
Proof.
  intros Hc Hw. unfold perform.
  destruct (same_items _ _ Hw) as [-> ->].
  destruct c as [|i|item|i props|i];
    cbn [itemsData find findById create updateById deleteById].
  - unfold find_, answer.
    destruct (exec_same SSelectAll _ w1 w2 select_all_blind Hw) as [Hr Hs].
    destruct (exec (Trx n1) _ _ w1) as [r1 w1'], (exec (Trx n2) _ _ w2) as [r2 w2'].
    cbn [fst snd] in *. subst r2. destruct r1; auto.
  - now apply findById_same.
  - unfold create_.
    destruct (exec_same (SInsert item) _ w1 w2 (insert_returning_blind item Hc) Hw)
      as [Hr Hs].
    destruct (exec (Trx n1) _ _ w1) as [r1 w1'], (exec (Trx n2) _ _ w2) as [r2 w2'].
    cbn [fst snd] in *. subst r2. destruct r1 as [ids|m]; [|auto].
    destruct (first_of ids); auto. now apply findById_same.
  - unfold updateById_.
    destruct (exec_same (SUpdate i props) _ w1 w2 (update_where_blind i props) Hw)
      as [Hr Hs].
    destruct (exec (Trx n1) _ _ w1) as [r1 w1'], (exec (Trx n2) _ _ w2) as [r2 w2'].
    cbn [fst snd] in *. subst r2. destruct r1 as [k|m]; [|auto].
    now apply findById_same.
  - unfold deleteById_.
    destruct (exec_same (SDelete i) _ w1 w2 (delete_returning_blind i) Hw) as [Hr Hs].
    destruct (exec (Trx n1) _ _ w1) as [r1 w1'], (exec (Trx n2) _ _ w2) as [r2 w2'].
    cbn [fst snd] in *. subst r2. destruct r1; auto.
Qed.

Lemma run_script_same bd :
  sequence_free bd ->
  forall w1 w2, same w1 w2 -> fst (run_script bd w1) = fst (run_script bd w2).
Proof.
  induction 1 as [| |c k Hc Hk IH]; intros w1 w2 Hw; cbn [run_script];
    [reflexivity|reflexivity|].
  destruct (perform_same c w1 w2 Hc Hw) as [Ho Hs].
  destruct (perform c w1) as [o1 w1'], (perform c w2) as [o2 w2'].
  cbn [fst snd] in *. subst o2.
  specialize (IH o1 w1' w2' Hs).
  destruct (run_script (k o1) w1') as [r1 w1''], (run_script (k o1) w2') as [r2 w2''].
  cbn [fst] in *. now subst r2.
Qed.

End Twice.

Section Repeat.

Lemma body_world_length w : length (scopes w) < length (scopes (body_world w)).
Proof. rewrite body_world_eq. cbn. rewrite length_app. cbn. lia. Qed.

Lemma body_worlds_same w1 w2 :
  items_rows (pg w1) = items_rows (pg w2) ->
  same_session (body_world w1) (length (scopes w1)) (length (promises w1))
               (body_world w2) (length (scopes w2)) (length (promises w2))
               (body_world w1) (body_world w2).
Proof.
  intros H.
  exists (items_rows (pg w1)), false, (items_seq (pg w1)), (items_seq (pg w2)), [], [].
  split; [apply body_world_in_scope|].
  rewrite H. apply body_world_in_scope.
Qed.

Lemma run_tests_two bd w :
  fst (run_tests (scoped [bd; bd]) w) =
  [Ran (fst (run_script bd (body_world w)));
   Ran (fst (run_script bd (body_world (snd (run_test (Test Started bd) w)))))].
Proof. rewrite !run_tests_scoped_cons. reflexivity. Qed.

Lemma same_twice bd w w1 :
  sequence_free bd -> items_rows (pg w1) = items_rows (pg w) ->
  fst (run_script bd (body_world w1)) = fst (run_script bd (body_world w)).
Proof.
  intros Hbd Hr.
  apply (run_script_same
           (body_world w1) (length (scopes w1)) (length (promises w1))
           (body_world w) (length (scopes w)) (length (promises w))
           (body_world_length _) (body_world_length _)).
  - rewrite body_world_eq. reflexivity.
  - rewrite body_world_eq. reflexivity.
  - exact Hbd.
  - apply body_worlds_same. exact Hr.
Qed.

Lemma twice_steady bd k w :
  steady w ->
  (sequence_free bd ->
   exists r, fst (run_tests (scoped [bd; bd]) w) = [Ran r; Ran r])
  /\ exists r1 r2,
       fst (run_tests (scoped [Await Find k; Await Find k]) w) = [Ran r1; Ran r2]
       /\ head (observed r1) = Some (Resolved (VRows baseline))
       /\ head (observed r2) = Some (Resolved (VRows baseline)).
Proof.
  intros Hw. split.
  - intros Hbd. rewrite run_tests_two.
    pose proof (run_test_steady (Test Started bd) w Hw) as Hw1.
    rewrite (same_twice bd w (snd (run_test (Test Started bd) w)) Hbd).
    + eexists. reflexivity.
    + rewrite (steady_rows _ Hw1). symmetry. apply (steady_rows _ Hw).
  - rewrite run_tests_two.
    pose proof (run_test_steady (Test Started (Await Find k)) w Hw) as Hw1.
    do 2 eexists. split; [reflexivity|].
    rewrite !first_find, (steady_rows _ Hw1), (steady_rows _ Hw). auto.
Qed.

Lemma run_suite_reports ts d :
  fst (run_suite ts (boot d)) = fst (run_tests ts (seeded d)).
Proof. now rewrite run_suite_eq. Qed.

(** C9, as the code has it. Run twice in a row, a test starts both
    times from the seeded baseline, and a test none of whose inserts
    takes its id from the identity sequence gives the same result both
    times. The sequence itself is not rolled back, so an id taken from
    it is not given again. *)
Theorem sequence_free_test_repeats (d : database) (bd : script)
    (k : outcome -> script) :
  sequence_free bd ->
  (exists r, fst (run_suite (scoped [bd; bd]) (boot d)) = [Ran r; Ran r])
  /\ exists r1 r2,
       fst (run_suite (scoped [Await Find k; Await Find k]) (boot d))
         = [Ran r1; Ran r2]
       /\ head (observed r1) = Some (Resolved (VRows baseline))
       /\ head (observed r2) = Some (Resolved (VRows baseline)).
Proof.
  intros Hbd. rewrite !run_suite_reports.
  destruct (twice_steady bd k (seeded d) (seeded_steady d)) as [H1 H2].
  split; [exact (H1 Hbd)|exact H2].
Qed.

Lemma sequence_free_test_repeats_witness :
  exists r, fst (run_suite (scoped [test_updateById; test_updateById])
                   (boot (Database [] 1 []))) = [Ran r; Ran r].
Proof.
  refine (proj1 (sequence_free_test_repeats (Database [] 1 []) test_updateById
                   (fun _ => Pass) _)).
  constructor; [exact I|].
  intros [[| | |r| |]|e]; try constructor.
  cbn. destruct (bool_decide _); constructor.
Defined.

(** C9 as stated fails: the test that creates an item, run twice in a
    row, is given id 4 and then id 5; and a test that expects the id 4
    for the row it creates passes the first time and fails the second. *)
Lemma repeated_create_differs :
  (exists r1 r2,
     fst (run_suite (scoped [test_create; test_create]) (boot (Database [] 1 [])))
       = [Ran r1; Ran r2]
     /\ observed r1 = [Resolved (VRow (Row 4 "saw" None (Some "A Nice Saw")))]
     /\ observed r2 = [Resolved (VRow (Row 5 "saw" None (Some "A Nice Saw")))]
     /\ r1 <> r2)
  /\ exists r1 r2,
       fst (run_suite (scoped [test_create_id 4; test_create_id 4])
              (boot (Database [] 1 [])))
         = [Ran r1; Ran r2]
       /\ passed r1 = true /\ passed r2 = false.
Proof.
  split.
  - do 2 eexists. split; [vm_compute; reflexivity|].
    split; [reflexivity|]. split; [reflexivity|]. discriminate.
  - do 2 eexists. split; [vm_compute; reflexivity|].
    split; reflexivity.
Qed.

End Repeat.

(* ===================================================================== *)
(** * deleteById *)
(* ===================================================================== *)
Section DeleteById.

(** [deleteById] through an open, unpoisoned transaction: the statement
    is sent on that handle, the rows with the id leave the view, and the
    answer is the truthiness of the first id returned. *)
Lemma deleteById_in_scope w0 n p view seq evs i :
  n < length (scopes w0) ->
  deleteById (itemsData (Trx n)) i (in_scope w0 n p view false seq evs) =
  (Resolved (VBool (truthy (first_of (ids_of (filter (fun r => id r = i) view))))),
   in_scope w0 n p (filter (fun r => id r <> i) view) false seq
            (evs ++ [EvSql (Trx n) (SDelete i)])).
Proof.
  intros Hn. cbn [itemsData deleteById]. unfold deleteById_.
  rewrite exec_in_scope by exact Hn. reflexivity.
Qed.

Lemma first_deleted_nonzero i view :
  i <> 0%Z ->
  truthy (first_of (ids_of (filter (fun r => id r = i) view)))
  = bool_decide (i ∈ ids_of view).
Proof.
  intros Hi. induction view as [|r view IH].
  - cbn. symmetry. apply bool_decide_eq_false_2. intros H. inversion H.
  - rewrite filter_cons. destruct (decide (id r = i)) as [E|E].
    + cbn. rewrite E.
      rewrite bool_decide_eq_true_2 by (apply elem_of_cons; now left).
      apply negb_true_iff, Z.eqb_neq. exact Hi.
    + rewrite IH. cbn [ids_of map].
      apply bool_decide_ext. rewrite elem_of_cons. intuition congruence.
Qed.

Lemma first_deleted_zero view :
  truthy (first_of (ids_of (filter (fun r => id r = 0%Z) view))) = false.
Proof.
  induction view as [|r view IH]; [reflexivity|].
  rewrite filter_cons. destruct (decide (id r = 0%Z)) as [E|E]; [|exact IH].
  cbn. now rewrite E.
Qed.

(** For an id other than 0 in the range of the column, [deleteById]
    resolves to [true] exactly when a row with that id was in the table. *)
Lemma deleteById_nonzero w0 n p view seq evs i :
  n < length (scopes w0) -> int4 i -> i <> 0%Z ->
  fst (deleteById (itemsData (Trx n)) i (in_scope w0 n p view false seq evs))
  = Resolved (VBool (bool_decide (i ∈ ids_of view))).
Proof.
  intros Hn _ Hi. rewrite deleteById_in_scope by exact Hn.
  cbn [fst]. now rewrite first_deleted_nonzero.
Qed.

(** C7, where the code departs from it: a row created with the id 0 is
    found, [deleteById(0)] sends its delete on the handle and removes
    the row, and resolves to [false]. *)
Theorem deleteById_zero_reports_false :
  let w0 := body_world (seeded (Database [] 1 [])) in
  let items := itemsData (Trx 0) in
  let w1 := snd (create items zero_item w0) in
  let w2 := snd (deleteById items 0 w1) in
  fst (create items zero_item w0) = Resolved (VRow (Row 0 "zero" None None))
  /\ fst (findById items 0 w1) = Resolved (VRow (Row 0 "zero" None None))
  /\ fst (deleteById items 0 w1) = Resolved (VBool false)
  /\ fst (findById items 0 w2) = Resolved VUndef
  /\ last (log w2) = Some (EvSql (Trx 0) (SDelete 0)).
Proof. vm_compute. repeat split. Qed.

(** The scenario of the test file: the seeded row 1 is deleted with the
    answer [true], and the next test still finds it. *)
Example delete_then_find :
  fst (run_suite (scoped [test_deleteById; test_findById]) (boot (Database [] 1 [])))
  = [Ran (Result true [Resolved (VBool true)]);
     Ran (Result true [Resolved (VRow (Row 1 "hammer" None (Some "A Claw Hammer")))])].
Proof. vm_compute. reflexivity. Qed.

(** The other two scenarios: an inserted row and an updated description
    are seen inside their test and gone in the next. *)
Example insert_then_find :
  map (fun rep => match rep with
                  | Ran r => map (fun o => match o with
                                           | Resolved (VRows l) => length l
                                           | _ => 0
                                           end) (observed r)
                  | _ => []
                  end)
      (fst (run_suite
              (scoped [Await (Create saw) (fun _ => Await Find (fun _ => Pass));
                       Await Find (fun _ => Pass)])
              (boot (Database [] 1 []))))
  = [[0; 4]; [3]].
Proof. vm_compute. reflexivity. Qed.

Example update_then_find :
  fst (run_suite (scoped [test_updateById; test_findById]) (boot (Database [] 1 [])))
  = [Ran (Result true
            [Resolved (VRow (Row 1 "hammer" None (Some "Our best seller!")))]);
     Ran (Result true [Resolved (VRow (Row 1 "hammer" None (Some "A Claw Hammer")))])].
Proof. vm_compute. reflexivity. Qed.

End DeleteById.

(* ===================================================================== *)
(** * The repository inside a scope *)
(* ===================================================================== *)
Section Repository.

Lemma distinct_NoDup {A : Type} `{EqDecision A} (l : list A) :
  distinct l = true <-> NoDup l.
Proof.
  induction l as [|x l IH]; cbn [distinct].
  - split; [constructor|reflexivity].
  - rewrite NoDup_cons, andb_true_iff, negb_true_iff, bool_decide_eq_false, IH.
    reflexivity.
Qed.

Lemma keys_ok_NoDup rs :
  keys_ok rs = true <-> NoDup (ids_of rs) /\ NoDup (skus_of rs).
Proof. unfold keys_ok. now rewrite andb_true_iff, !distinct_NoDup. Qed.

Lemma filter_id_none i (rs : list row) :
  i ∉ ids_of rs -> filter (fun r => id r = i) rs = [].
Proof.
  induction rs as [|r rs IH]; intros Hi; [reflexivity|].
  rewrite filter_cons. cbn [ids_of map] in Hi. rewrite not_elem_of_cons in Hi.
  destruct Hi as [Hne Hi]. rewrite decide_False by congruence. now apply IH.
Qed.

Lemma filter_id_all i (rs : list row) :
  Forall (fun r => id r <> i) rs -> filter (fun r => id r = i) rs = [].
Proof.
  intros H. apply filter_id_none. intros Hin.
  apply list_elem_of_fmap in Hin as (r & -> & Hr).
  exact (proj1 (Forall_forall _ _) H r Hr eq_refl).
Qed.

(** With unique ids, the row found by id is the row that is there. *)
Lemma found_by_id (rs : list row) r :
  NoDup (ids_of rs) -> r ∈ rs ->
  head (filter (fun x => id x = id r) rs) = Some r.
Proof.
  induction rs as [|x rs IH]; intros Hnd Hr; [inversion Hr|].
  cbn [ids_of map] in Hnd. apply NoDup_cons in Hnd as [Hx Hnd].
  rewrite filter_cons. apply elem_of_cons in Hr as [->|Hr].
  - now rewrite decide_True.
  - rewrite decide_False; [now apply IH|].
    intros E. apply Hx. rewrite E. apply list_elem_of_fmap. eauto.
Qed.

Variables (w0 : world) (n : nat) (p : pid).
Hypothesis Hn : n < length (scopes w0).

Lemma find_in_scope view seq evs :
  find (itemsData (Trx n)) (in_scope w0 n p view false seq evs) =
  (Resolved (VRows view),
   in_scope w0 n p view false seq (evs ++ [EvSql (Trx n) SSelectAll])).
Proof.
  cbn [itemsData find]. unfold find_. now rewrite exec_in_scope by exact Hn.
Qed.

Lemma findById_in_scope view seq evs i :
  findById (itemsData (Trx n)) i (in_scope w0 n p view false seq evs) =
  (Resolved (row_or_undefined (head (filter (fun r => id r = i) view))),
   in_scope w0 n p view false seq (evs ++ [EvSql (Trx n) (SSelectById i)])).
Proof.
  cbn [itemsData findById]. unfold findById_. now rewrite exec_in_scope by exact Hn.
Qed.

Lemma insert_returning_ok item s view seq :
  f_sku item = Some s ->
  keys_ok (view ++ [stored_row item s seq]) = true ->
  insert_returning item (TState view seq) =
  (QOk [id (stored_row item s seq)],
   TState (view ++ [stored_row item s seq]) (seq_after item seq)).
Proof.
  unfold insert_returning, stored_row, seq_after. cbn [t_rows t_seq id].
  intros Hs Hk. destruct (f_id item) as [i|]; rewrite Hs, Hk; reflexivity.
Qed.

Lemma insert_returning_refused item view seq :
  (forall s, f_sku item = Some s ->
             keys_ok (view ++ [stored_row item s seq]) = false) ->
  exists m, insert_returning item (TState view seq)
            = (QErr m, TState view (seq_after item seq)).
Proof.
  unfold insert_returning, stored_row, seq_after. cbn [t_rows t_seq].
  intros H. destruct (f_id item) as [i|];
    (destruct (f_sku item) as [s|]; [rewrite (H s eq_refl)|]); eauto.
Qed.

Lemma create_stores view seq evs item s :
  f_sku item = Some s ->
  keys_ok (view ++ [stored_row item s seq]) = true ->
  create (itemsData (Trx n)) item (in_scope w0 n p view false seq evs) =
    (Resolved (VRow (stored_row item s seq)),
     in_scope w0 n p (view ++ [stored_row item s seq]) false (seq_after item seq)
       (evs ++ [EvSql (Trx n) (SInsert item);
                EvSql (Trx n) (SSelectById (id (stored_row item s seq)))])).
Proof.
  intros Hs Hk.
  cbn [itemsData create]. unfold create_.
  rewrite exec_in_scope by exact Hn.
  rewrite (insert_returning_ok item s view seq Hs Hk).
  cbn [fst snd t_rows t_seq is_err first_of].
  change (findById_ (Trx n)) with (findById (itemsData (Trx n))).
  rewrite findById_in_scope, <- app_assoc.
  rewrite found_by_id; [reflexivity| |].
  - apply keys_ok_NoDup in Hk. tauto.
  - apply elem_of_app. right. now apply list_elem_of_singleton.
Qed.

(** X1. [create] inside an open transaction, for an item whose values
    fit their columns, with a sku that keeps the keys unique, and whose id
    (the given one, or the next value of the sequence) is in the range of
    the column: it resolves to the row as stored, [findById] of that id
    then gives the same row, and [find] lists it after the rows that were
    there. *)
Theorem create_then_found view seq evs item s :
  storable item -> int4 (id (stored_row item s seq)) ->
  f_sku item = Some s ->
  keys_ok (view ++ [stored_row item s seq]) = true ->
  create (itemsData (Trx n)) item (in_scope w0 n p view false seq evs) =
    (Resolved (VRow (stored_row item s seq)),
     in_scope w0 n p (view ++ [stored_row item s seq]) false (seq_after item seq)
       (evs ++ [EvSql (Trx n) (SInsert item);
                EvSql (Trx n) (SSelectById (id (stored_row item s seq)))]))
  /\ fst (findById (itemsData (Trx n)) (id (stored_row item s seq))
            (snd (create (itemsData (Trx n)) item
                    (in_scope w0 n p view false seq evs))))
     = Resolved (VRow (stored_row item s seq))
  /\ fst (find (itemsData (Trx n))
            (snd (create (itemsData (Trx n)) item
                    (in_scope w0 n p view false seq evs))))
     = Resolved (VRows (view ++ [stored_row item s seq])).
Proof.
  intros _ _ Hs Hk.
  rewrite (create_stores view seq evs item s Hs Hk). cbn [snd].
  rewrite findById_in_scope, find_in_scope.
  rewrite found_by_id; [auto| |].
  - apply keys_ok_NoDup in Hk. tauto.
  - apply elem_of_app. right. now apply list_elem_of_singleton.
Qed.

(** A call through a poisoned transaction is refused, whatever it is. *)
Lemma invoke_poisoned view seq evs c :
  exists evs',
    invoke (Trx n) c (in_scope w0 n p view true seq evs) =
    (Failed (VErr "current transaction is aborted"),
     in_scope w0 n p view true seq evs').
Proof.
  destruct c as [|i|item|i props|i]; cbn [invoke itemsData find findById create
    updateById deleteById];
    unfold find_, findById_, create_, updateById_, deleteById_;
    rewrite exec_in_scope by exact Hn; cbn [answer]; eauto.
Qed.

(** X2. [create] inside an open transaction, for an item without sku or
    whose row would break the uniqueness of the keys: it is rejected, the
    rows stay as they were, and every later call through the same
    transaction is rejected as well, leaving the rows as they were. *)
Theorem create_refused_poisons view seq evs item c :
  (forall s, f_sku item = Some s ->
             keys_ok (view ++ [stored_row item s seq]) = false) ->
  exists m evs1 evs2,
    create (itemsData (Trx n)) item (in_scope w0 n p view false seq evs) =
      (Failed (VErr m), in_scope w0 n p view true (seq_after item seq) evs1)
    /\ invoke (Trx n) c (in_scope w0 n p view true (seq_after item seq) evs1) =
       (Failed (VErr "current transaction is aborted"),
        in_scope w0 n p view true (seq_after item seq) evs2).
Proof.
  intros H. destruct (insert_returning_refused item view seq H) as (m & Hm).
  destruct (invoke_poisoned view (seq_after item seq)
              (evs ++ [EvSql (Trx n) (SInsert item)]) c) as (evs2 & H2).
  exists m, (evs ++ [EvSql (Trx n) (SInsert item)]), evs2.
  split; [|exact H2].
  cbn [itemsData create]. unfold create_.
  rewrite exec_in_scope by exact Hn. now rewrite Hm.
Qed.

(** The rows after an update: those it left, then those it changed. *)
Lemma rows_split i (view : list row) :
  filter (fun r => id r <> i) view ++ filter (fun r => id r = i) view ≡ₚ view.
Proof.
  induction view as [|x view IH]; [reflexivity|].
  rewrite !filter_cons. destruct (decide (id x = i)) as [E|E].
  - rewrite decide_False by tauto.
    rewrite <- Permutation_middle. now constructor.
  - rewrite decide_True by exact E. cbn. now constructor.
Qed.

Lemma updated_rows i props (view : list row) :
  filter (fun r => id r <> i) view
    ++ map (apply_fields props) (filter (fun r => id r = i) view)
  ≡ₚ map (fun x => if bool_decide (id x = i) then apply_fields props x else x) view.
Proof.
  induction view as [|x view IH]; [reflexivity|].
  rewrite !filter_cons. cbn [map]. destruct (decide (id x = i)) as [E|E].
  - rewrite decide_False by tauto. rewrite bool_decide_eq_true_2 by exact E.
    cbn [map]. rewrite <- Permutation_middle. now constructor.
  - rewrite decide_True by exact E. rewrite bool_decide_eq_false_2 by exact E.
    cbn. now constructor.
Qed.

Lemma updated_keys i props view :
  f_id props = None -> f_sku props = None ->
  keys_ok view = true ->
  keys_ok (filter (fun r => id r <> i) view
             ++ map (apply_fields props) (filter (fun r => id r = i) view))
  = true.
Proof.
  intros Hi Hs Hk. apply keys_ok_NoDup in Hk as [H1 H2]. apply keys_ok_NoDup.
  assert (Ei : ids_of (map (apply_fields props) (filter (fun r => id r = i) view))
               = ids_of (filter (fun r => id r = i) view)).
  { unfold ids_of. rewrite map_map. apply map_ext. intros r.
    unfold apply_fields. cbn. now rewrite Hi. }
  assert (Es : skus_of (map (apply_fields props) (filter (fun r => id r = i) view))
               = skus_of (filter (fun r => id r = i) view)).
  { unfold skus_of. rewrite map_map. apply map_ext. intros r.
    unfold apply_fields. cbn. now rewrite Hs. }
  unfold ids_of, skus_of in *. rewrite !map_app, Ei, Es, <- !map_app.
  split.
  - apply (NoDup_Permutation_proper _ _
             (Permutation_map id (rows_split i view))). exact H1.
  - apply (NoDup_Permutation_proper _ _
             (Permutation_map sku (rows_split i view))). exact H2.
Qed.

Lemma updated_found i props (view : list row) :
  f_id props = None ->
  filter (fun r => id r = i)
    (filter (fun r => id r <> i) view
       ++ map (apply_fields props) (filter (fun r => id r = i) view))
  = map (apply_fields props) (filter (fun r => id r = i) view).
Proof.
  intros Hi. rewrite filter_app.
  rewrite (filter_id_all i (filter (fun r => id r <> i) view)).
  2:{ apply Forall_forall. intros r Hr.
      now apply list_elem_of_filter in Hr as [Hr _]. }
  cbn [app]. induction view as [|x view IH]; [reflexivity|].
  rewrite filter_cons. destruct (decide (id x = i)) as [E|E]; [|exact IH].
  cbn [map]. rewrite filter_cons.
  rewrite decide_True by (unfold apply_fields; cbn; now rewrite Hi).
  now rewrite IH.
Qed.

Lemma update_applied view seq evs i props r :
  keys_ok view = true -> f_id props = None -> f_sku props = None ->
  no_fields props = false ->
  head (filter (fun x => id x = i) view) = Some r ->
  updateById (itemsData (Trx n)) i props (in_scope w0 n p view false seq evs) =
    (Resolved (VRow (apply_fields props r)),
     in_scope w0 n p
       (filter (fun x => id x <> i) view
          ++ map (apply_fields props) (filter (fun x => id x = i) view))
       false seq
       (evs ++ [EvSql (Trx n) (SUpdate i props); EvSql (Trx n) (SSelectById i)])).
Proof.
  intros Hk Hi Hs Hne Hr.
  cbn [itemsData updateById]. unfold updateById_.
  rewrite exec_in_scope by exact Hn.
  unfold update_where. cbn [t_rows t_seq].
  rewrite Hne, (updated_keys i props view Hi Hs Hk).
  cbn [fst snd t_rows t_seq is_err].
  change (findById_ (Trx n)) with (findById (itemsData (Trx n))).
  rewrite findById_in_scope, (updated_found i props view Hi), <- app_assoc.
  destruct (filter (fun x => id x = i) view); [discriminate Hr|].
  cbn in Hr. injection Hr as ->. reflexivity.
Qed.

(** X3. [updateById] with an id in the range of the column and
    properties that fit their columns, set something and leave [id] and
    [sku] alone, on a table whose keys are unique and that has a row with
    the id: it resolves to that row with the properties applied,
    [findById] of the id then gives the updated row, and [find] then
    lists, in some order, the rows that were there with the properties
    applied to those with the id. *)
Theorem updateById_applies view seq evs i props r :
  int4 i -> storable props -> no_fields props = false ->
  keys_ok view = true -> f_id props = None -> f_sku props = None ->
  head (filter (fun x => id x = i) view) = Some r ->
  fst (updateById (itemsData (Trx n)) i props (in_scope w0 n p view false seq evs))
    = Resolved (VRow (apply_fields props r))
  /\ fst (findById (itemsData (Trx n)) i
            (snd (updateById (itemsData (Trx n)) i props
                    (in_scope w0 n p view false seq evs))))
     = Resolved (VRow (apply_fields props r))
  /\ exists rows,
       fst (find (itemsData (Trx n))
              (snd (updateById (itemsData (Trx n)) i props
                      (in_scope w0 n p view false seq evs))))
         = Resolved (VRows rows)
       /\ rows ≡ₚ map (fun x => if bool_decide (id x = i)
                                then apply_fields props x else x) view.
Proof.
  intros _ _ Hne Hk Hi Hs Hr.
  rewrite (update_applied view seq evs i props r Hk Hi Hs Hne Hr).
  cbn [fst snd]. split; [reflexivity|].
  rewrite findById_in_scope, find_in_scope, (updated_found i props view Hi).
  cbn [fst]. split.
  - destruct (filter (fun x => id x = i) view); [discriminate Hr|].
    cbn in Hr. injection Hr as ->. reflexivity.
  - eexists. split; [reflexivity|]. apply updated_rows.
Qed.

Lemma update_nothing i (view : list row) :
  i ∉ ids_of view ->
  filter (fun x => id x <> i) view = view.
Proof.
  induction view as [|r view IH]; intros Hno; [reflexivity|].
  cbn [ids_of map] in *. rewrite not_elem_of_cons in Hno. destruct Hno as [Hne Hno].
  rewrite filter_cons, decide_True by congruence.
  f_equal. now apply IH.
Qed.

(** X6. [updateById] of an id in the range of the column that no row
    has, with properties that fit their columns and set something, on a
    table whose keys are unique: it resolves to [undefined] and the rows
    stay as they were. *)
Theorem updateById_missing view seq evs i props :
  int4 i -> storable props -> no_fields props = false ->
  keys_ok view = true -> i ∉ ids_of view ->
  updateById (itemsData (Trx n)) i props (in_scope w0 n p view false seq evs) =
    (Resolved VUndef,
     in_scope w0 n p view false seq
       (evs ++ [EvSql (Trx n) (SUpdate i props); EvSql (Trx n) (SSelectById i)])).
Proof.
  intros _ _ Hne Hk Hno.
  cbn [itemsData updateById]. unfold updateById_.
  rewrite exec_in_scope by exact Hn.
  unfold update_where. cbn [t_rows t_seq].
  rewrite Hne, (update_nothing i view Hno), (filter_id_none i view Hno).
  cbn [map]. rewrite app_nil_r, Hk.
  cbn [fst snd t_rows t_seq is_err].
  change (findById_ (Trx n)) with (findById (itemsData (Trx n))).
  rewrite findById_in_scope, filter_id_none, <- app_assoc by exact Hno.
  reflexivity.
Qed.

Lemma moving_props_set props j : f_id props = Some j -> no_fields props = false.
Proof. destruct props as [[?|] ? ? ?]; [reflexivity|discriminate]. Qed.

(** X4. [updateById] answers with [findById] of the id it was called
    with: when the properties (which fit their columns) give the row
    another id and the keys stay unique, the update is done (the row is
    found under its new id) and the call resolves to [undefined]. *)
Theorem updateById_moving_id view seq evs i j props r :
  int4 i -> storable props ->
  f_id props = Some j -> j <> i -> r ∈ view -> id r = i ->
  keys_ok (filter (fun x => id x <> i) view
             ++ map (apply_fields props) (filter (fun x => id x = i) view)) = true ->
  fst (updateById (itemsData (Trx n)) i props (in_scope w0 n p view false seq evs))
    = Resolved VUndef
  /\ fst (findById (itemsData (Trx n)) j
            (snd (updateById (itemsData (Trx n)) i props
                    (in_scope w0 n p view false seq evs))))
     = Resolved (VRow (apply_fields props r)).
Proof.
  intros _ _ Hj Hne Hr Hid Hk.
  assert (Hu : updateById (itemsData (Trx n)) i props
                 (in_scope w0 n p view false seq evs) =
    (Resolved VUndef,
     in_scope w0 n p
       (filter (fun x => id x <> i) view
          ++ map (apply_fields props) (filter (fun x => id x = i) view))
       false seq
       (evs ++ [EvSql (Trx n) (SUpdate i props); EvSql (Trx n) (SSelectById i)]))).
  { cbn [itemsData updateById]. unfold updateById_.
    rewrite exec_in_scope by exact Hn.
    unfold update_where. cbn [t_rows t_seq].
    rewrite (moving_props_set props j Hj), Hk.
    cbn [fst snd t_rows t_seq is_err].
    change (findById_ (Trx n)) with (findById (itemsData (Trx n))).
    rewrite findById_in_scope, <- app_assoc.
    rewrite filter_id_all; [reflexivity|].
    apply Forall_app. split.
    - apply Forall_forall. intros x Hx.
      now apply list_elem_of_filter in Hx as [Hx _].
    - apply Forall_forall. intros x Hx.
      apply list_elem_of_fmap in Hx as (y & -> & _).
      unfold apply_fields. cbn. rewrite Hj. cbn. exact Hne. }
  rewrite Hu. cbn [fst snd]. split; [reflexivity|].
  rewrite findById_in_scope. cbn [fst].
  replace j with (id (apply_fields props r))
    by (unfold apply_fields; cbn; now rewrite Hj).
  rewrite found_by_id; [reflexivity| |].
  - apply keys_ok_NoDup in Hk. tauto.
  - apply elem_of_app. right.
    apply list_elem_of_fmap. exists r. split; [reflexivity|].
    apply list_elem_of_filter. auto.
Qed.

(** X5. After [deleteById] of any id in the range of the column inside
    an open transaction, [findById] of that id resolves to [undefined],
    [find] lists the rows with another id in their order, and a second
    [deleteById] resolves to [false]. *)
Theorem deleteById_then_gone view seq evs i :
  int4 i ->
  fst (findById (itemsData (Trx n)) i
         (snd (deleteById (itemsData (Trx n)) i (in_scope w0 n p view false seq evs))))
    = Resolved VUndef
  /\ fst (find (itemsData (Trx n))
            (snd (deleteById (itemsData (Trx n)) i
                    (in_scope w0 n p view false seq evs))))
     = Resolved (VRows (filter (fun r => id r <> i) view))
  /\ fst (deleteById (itemsData (Trx n)) i
            (snd (deleteById (itemsData (Trx n)) i
                    (in_scope w0 n p view false seq evs))))
     = Resolved (VBool false).
Proof.
  intros _.
  rewrite deleteById_in_scope by exact Hn. cbn [snd].
  rewrite findById_in_scope, find_in_scope, deleteById_in_scope by exact Hn.
  cbn [fst].
  assert (E : filter (fun r => id r = i) (filter (fun r => id r <> i) view) = []).
  { apply filter_id_all. apply Forall_forall. intros r Hr.
    now apply list_elem_of_filter in Hr as [Hr _]. }
  rewrite E. auto.
Qed.

Lemma NoDup_map_filter {A B : Type} (f : A -> B) (P : A -> Prop)
    `{forall x, Decision (P x)} (l : list A) :
  NoDup (map f l) -> NoDup (map f (filter P l)).
Proof.
  induction l as [|x l IH]; intros Hnd; [constructor|].
  cbn [map] in Hnd. apply NoDup_cons in Hnd as [Hx Hnd].
  rewrite filter_cons. destruct (decide (P x)); [|now apply IH].
  cbn [map]. apply NoDup_cons. split; [|now apply IH].
  intros Hin. apply Hx.
  apply list_elem_of_fmap in Hin as (y & -> & Hy).
  apply list_elem_of_filter in Hy as [_ Hy].
  apply list_elem_of_fmap. eauto.
Qed.

Lemma insert_returning_keeps item T :
  keys_ok (t_rows T) = true ->
  keys_ok (t_rows (snd (insert_returning item T))) = true.
Proof.
  intros Hk. unfold insert_returning.
  destruct (f_id item) as [i|]; (destruct (f_sku item) as [s|]; [|exact Hk]);
    match goal with |- context [keys_ok (?a ++ ?b)] =>
      destruct (keys_ok (a ++ b)) eqn:E end; cbn [snd t_rows]; auto.
Qed.

Lemma update_where_keeps i props T :
  keys_ok (t_rows T) = true ->
  keys_ok (t_rows (snd (update_where i props T))) = true.
Proof.
  intros Hk. unfold update_where.
  destruct (no_fields props); [exact Hk|].
  match goal with |- context [keys_ok (?a ++ ?b)] =>
    destruct (keys_ok (a ++ b)) eqn:E end; cbn [snd t_rows]; auto.
Qed.

Lemma delete_returning_keeps i T :
  keys_ok (t_rows T) = true ->
  keys_ok (t_rows (snd (delete_returning i T))) = true.
Proof.
  intros Hk. unfold delete_returning. cbn [snd t_rows].
  apply keys_ok_NoDup in Hk as [H1 H2]. apply keys_ok_NoDup.
  split; apply NoDup_map_filter; assumption.
Qed.

(** X7. The constraints of the migration (primary key [id], unique
    [sku]) are an invariant of the repository: whatever is called inside
    an open transaction on rows whose keys are unique, the world stays in
    that transaction and the keys of its rows stay unique. *)
Theorem keys_kept view seq evs c :
  keys_ok view = true ->
  exists view' failed seq' evs',
    snd (invoke (Trx n) c (in_scope w0 n p view false seq evs))
    = in_scope w0 n p view' failed seq' evs'
    /\ keys_ok view' = true.
Proof.
  intros Hk.
  destruct c as [|i|item|i props|i]; cbn [invoke].
  - rewrite find_in_scope. cbn [snd]. eauto 10.
  - rewrite findById_in_scope. cbn [snd]. eauto 10.
  - cbn [itemsData create]. unfold create_.
    rewrite exec_in_scope by exact Hn.
    pose proof (insert_returning_keeps item (TState view seq) Hk) as Hk'.
    destruct (insert_returning item (TState view seq)) as [[ids|m] t].
    + cbn [fst snd is_err] in *.
      destruct (first_of ids); cbn [snd]; eauto 10.
      change (findById_ (Trx n)) with (findById (itemsData (Trx n))).
      rewrite findById_in_scope. cbn [snd]. eauto 10.
    + cbn [fst snd is_err] in *. eauto 10.
  - cbn [itemsData updateById]. unfold updateById_.
    rewrite exec_in_scope by exact Hn.
    pose proof (update_where_keeps i props (TState view seq) Hk) as Hk'.
    destruct (update_where i props (TState view seq)) as [[k|m] t].
    + cbn [fst snd is_err] in *.
      change (findById_ (Trx n)) with (findById (itemsData (Trx n))).
      rewrite findById_in_scope. cbn [snd]. eauto 10.
    + cbn [fst snd is_err] in *. eauto 10.
  - rewrite deleteById_in_scope by exact Hn. cbn [snd].
    pose proof (delete_returning_keeps i (TState view seq) Hk) as Hk'.
    cbn in Hk'. eauto 10.
Qed.

End Repository.

(* ===================================================================== *)
(** * The repository through any handle *)
(* ===================================================================== *)
Section AnyHandle.

Lemma scope_eta sc :
  sc_state sc = Open -> sc_failed sc = false ->
  Scope Open (sc_view sc) false (sc_lifetime sc) = sc.
Proof. destruct sc; cbn; now intros -> ->. Qed.

(** A statement that reads: its result is a function of the rows, and it
    leaves rows and sequence as they are. *)
Lemma exec_read {A : Type} h s (q : tstate -> qresult A * tstate) w :
  (forall T, snd (q T) = T) ->
  (forall T, is_err (fst (q T)) = false) ->
  pg (snd (exec h s q w)) = pg w
  /\ scopes (snd (exec h s q w)) = scopes w
  /\ promises (snd (exec h s q w)) = promises w.
Proof.
  intros Hq He. unfold exec. destruct h as [|m].
  - destruct (destroyed w); [auto|].
    specialize (Hq (items_state (items_rows (pg w)) w)).
    destruct (q _) as [r t]. cbn [snd] in *. subst t.
    cbn. now rewrite database_eta.
  - destruct (scopes w !! m) as [sc|] eqn:E; [|auto].
    case_bool_decide as Ho; cbn [negb]; [|auto].
    destruct (sc_failed sc) eqn:Ef; [auto|].
    specialize (Hq (items_state (sc_view sc) w)).
    specialize (He (items_state (sc_view sc) w)).
    destruct (q _) as [r t]. cbn [fst snd] in *. subst t.
    destruct r; [|discriminate He].
    cbn. rewrite database_eta, (scope_eta sc Ho Ef), list_insert_id by exact E.
    auto.
Qed.

(** X8. [find], and [findById] of an id in the range of the column,
    only read, through any handle and in any world: the committed
    database, the transactions with their views, and the promises are
    after the call what they were before. *)
Theorem reads_change_nothing (h : handle) (i : Z) (w : world) :
  int4 i ->
  (pg (snd (find (itemsData h) w)) = pg w
   /\ scopes (snd (find (itemsData h) w)) = scopes w
   /\ promises (snd (find (itemsData h) w)) = promises w)
  /\ (pg (snd (findById (itemsData h) i w)) = pg w
      /\ scopes (snd (findById (itemsData h) i w)) = scopes w
      /\ promises (snd (findById (itemsData h) i w)) = promises w).
Proof.
  intros _.
  cbn [itemsData find findById]. unfold find_, findById_, answer. split.
  - pose proof (exec_read h SSelectAll select_all w
                  (fun T => eq_refl) (fun T => eq_refl)) as H.
    destruct (exec h SSelectAll select_all w) as [[a|m] w1]; exact H.
  - pose proof (exec_read h (SSelectById i) (select_by_id i) w
                  (fun T => eq_refl) (fun T => eq_refl)) as H.
    destruct (exec h (SSelectById i) (select_by_id i) w) as [[a|m] w1]; exact H.
Qed.

Lemma exec_through_pool {A : Type} w rows seq evs s
    (q : tstate -> qresult A * tstate) :
  destroyed w = false ->
  exec Pool s q (through_pool w rows seq evs) =
  (fst (q (TState rows seq)),
   through_pool w (t_rows (snd (q (TState rows seq))))
                (t_seq (snd (q (TState rows seq))))
                (evs ++ [EvSql Pool s])).
Proof.
  intros Hd. unfold exec, through_pool. cbn [destroyed]. rewrite Hd.
  unfold items_state. cbn [pg items_rows items_seq].
  destruct (q (TState rows seq)) as [r t]. cbn [fst snd].
  unfold store_items, with_pg, emit. cbn. now rewrite <- app_assoc.
Qed.

(** X9. The repository does not know what it is bound to: one call
    through [db] on committed rows and the same call through an open
    transaction that sees the same rows (with the sequence at the same
    value) end the same way, and leave the same rows and the same
    sequence value, committed in the one case and in the view of the
    transaction in the other. *)
Theorem same_through_db_and_scope (w w0 : world) (n : nat) (p : pid)
    (rows : list row) (seq : Z) (evs1 evs2 : list event) (c : call) :
  destroyed w = false ->
  n < length (scopes w0) ->
  exists o rows' seq' failed evs1' evs2',
    invoke Pool c (through_pool w rows seq evs1)
      = (o, through_pool w rows' seq' evs1')
    /\ invoke (Trx n) c (in_scope w0 n p rows false seq evs2)
       = (o, in_scope w0 n p rows' failed seq' evs2').
Proof.
  intros Hd Hn.
  destruct c as [|i|item|i props|i];
    cbn [invoke itemsData find findById create updateById deleteById];
    unfold find_, findById_, create_, updateById_, deleteById_.
  - rewrite exec_through_pool, exec_in_scope by assumption.
    cbn [select_all fst snd answer t_rows t_seq is_err]. eauto 10.
  - rewrite exec_through_pool, exec_in_scope by assumption.
    cbn [select_by_id fst snd answer t_rows t_seq is_err]. eauto 10.
  - rewrite exec_through_pool, exec_in_scope by assumption.
    destruct (insert_returning item (TState rows seq)) as [[ids|m] t].
    + cbn [fst snd is_err]. destruct (first_of ids); eauto 10.
      unfold findById_.
      rewrite exec_through_pool, exec_in_scope by assumption.
      cbn [select_by_id fst snd answer t_rows t_seq is_err]. eauto 10.
    + cbn [fst snd is_err]. eauto 10.
  - rewrite exec_through_pool, exec_in_scope by assumption.
    destruct (update_where i props (TState rows seq)) as [[k|m] t].
    + cbn [fst snd is_err]. unfold findById_.
      rewrite exec_through_pool, exec_in_scope by assumption.
      cbn [select_by_id fst snd answer t_rows t_seq is_err]. eauto 10.
    + cbn [fst snd is_err]. eauto 10.
  - rewrite exec_through_pool, exec_in_scope by assumption.
    cbn [delete_returning fst snd answer t_rows t_seq is_err]. eauto 10.
Qed.

Lemma exec_closed {A : Type} n s (q : tstate -> qresult A * tstate) w sc :
  scopes w !! n = Some sc -> sc_state sc <> Open ->
  exec (Trx n) s q w = (QErr "Transaction query already complete", w).
Proof.
  intros E Hs. unfold exec. rewrite E.
  now rewrite bool_decide_eq_false_2.
Qed.

(** X10. The handle of a test is dead once its teardown has run: after
    a whole test, every call on the repository the test was given is
    rejected without anything being sent, and the world is left exactly
    as it was. *)
Theorem stale_handle_refused (bd : script) (w : world) (c : call) :
  perform c (snd (run_test (Test Started bd) w))
  = (Failed (VErr "Transaction query already complete"),
     snd (run_test (Test Started bd) w)).
Proof.
  destruct (test_started bd w) as (view & failed & seq & evs & -> & _).
  cbn [snd]. unfold perform. cbn [var_items].
  match goal with |- context [find (itemsData _) ?W] => set (w' := W) end.
  assert (E : scopes w' !! length (scopes w)
              = Some (Scope RolledBack view failed (length (promises w)))).
  { subst w'. cbn [scopes]. apply lookup_last. }
  assert (Hs : sc_state (Scope RolledBack view failed (length (promises w))) <> Open)
    by discriminate.
  destruct c as [|i|item|i props|i];
    cbn [itemsData find findById create updateById deleteById];
    unfold find_, findById_, create_, updateById_, deleteById_;
    rewrite (exec_closed _ _ _ _ _ E Hs); reflexivity.
Qed.

End AnyHandle.

(* ===================================================================== *)
(** * What a suite leaves behind *)
(* ===================================================================== *)
Section Aftermath.

Lemma exec_seq {A : Type} h s (q : tstate -> qresult A * tstate) w :
  (forall T, (t_seq T <= t_seq (snd (q T)))%Z) ->
  (items_seq (pg w) <= items_seq (pg (snd (exec h s q w))))%Z
  /\ others (pg (snd (exec h s q w))) = others (pg w).
Proof.
  intros Hq. unfold exec. destruct h as [|m].
  - destruct (destroyed w); [cbn [snd]; split; [lia|reflexivity]|].
    specialize (Hq (items_state (items_rows (pg w)) w)).
    destruct (q _) as [r t]. cbn in *. auto.
  - destruct (scopes w !! m) as [sc|]; [|cbn [snd]; split; [lia|reflexivity]].
    destruct (negb _); [cbn [snd]; split; [lia|reflexivity]|].
    destruct (sc_failed sc); [cbn [snd emit pg]; split; [lia|reflexivity]|].
    specialize (Hq (items_state (sc_view sc) w)).
    destruct (q _) as [r t]. cbn in *. auto.
Qed.

Lemma select_all_seq T : (t_seq T <= t_seq (snd (select_all T)))%Z.
Proof. cbn. lia. Qed.

Lemma select_by_id_seq i T : (t_seq T <= t_seq (snd (select_by_id i T)))%Z.
Proof. cbn. lia. Qed.

Lemma insert_returning_seq item T :
  (t_seq T <= t_seq (snd (insert_returning item T)))%Z.
Proof.
  unfold insert_returning.
  destruct (f_id item), (f_sku item); try destruct (keys_ok _); cbn; lia.
Qed.

Lemma update_where_seq i props T :
  (t_seq T <= t_seq (snd (update_where i props T)))%Z.
Proof.
  unfold update_where. destruct (no_fields props); [cbn; lia|].
  destruct (keys_ok _); cbn; lia.
Qed.

Lemma delete_returning_seq i T :
  (t_seq T <= t_seq (snd (delete_returning i T)))%Z.
Proof. cbn. lia. Qed.

Lemma findById_seq h i w :
  (items_seq (pg w) <= items_seq (pg (snd (findById_ h i w))))%Z
  /\ others (pg (snd (findById_ h i w))) = others (pg w).
Proof.
  unfold findById_, answer.
  pose proof (exec_seq h (SSelectById i) _ w (select_by_id_seq i)) as H.
  destruct (exec h (SSelectById i) (select_by_id i) w) as [[a|m] w1]; exact H.
Qed.

Lemma invoke_seq h c w :
  (items_seq (pg w) <= items_seq (pg (snd (invoke h c w))))%Z
  /\ others (pg (snd (invoke h c w))) = others (pg w).
Proof.
  destruct c as [|i|item|i props|i];
    cbn [invoke itemsData find findById create updateById deleteById].
  - unfold find_, answer.
    pose proof (exec_seq h SSelectAll _ w select_all_seq) as H.
    destruct (exec h SSelectAll select_all w) as [[a|m] w1]; exact H.
  - apply findById_seq.
  - unfold create_.
    pose proof (exec_seq h (SInsert item) _ w (insert_returning_seq item)) as H.
    destruct (exec h (SInsert item) (insert_returning item) w) as [[ids|m] w1];
      [|exact H].
    cbn [snd] in H. destruct (first_of ids); try exact H.
    destruct (findById_seq h z w1) as [H1 H2]. destruct H as [H3 H4].
    split; [lia|congruence].
  - unfold updateById_.
    pose proof (exec_seq h (SUpdate i props) _ w (update_where_seq i props)) as H.
    destruct (exec h (SUpdate i props) (update_where i props) w) as [[k|m] w1];
      [|exact H].
    cbn [snd] in H.
    destruct (findById_seq h i w1) as [H1 H2]. destruct H as [H3 H4].
    split; [lia|congruence].
  - unfold deleteById_.
    pose proof (exec_seq h (SDelete i) _ w (delete_returning_seq i)) as H.
    destruct (exec h (SDelete i) (delete_returning i) w) as [[ids|m] w1]; exact H.
Qed.

Lemma perform_invoke c w h :
  var_items w = Some h -> perform c w = invoke h c w.
Proof. intros E. unfold perform, invoke. rewrite E. now destruct c. Qed.

Lemma perform_seq c w :
  (items_seq (pg w) <= items_seq (pg (snd (perform c w))))%Z
  /\ others (pg (snd (perform c w))) = others (pg w).
Proof.
  destruct (var_items w) as [h|] eqn:E.
  - rewrite (perform_invoke c w h E). apply invoke_seq.
  - unfold perform. rewrite E. cbn. split; [lia|reflexivity].
Qed.

Lemma run_script_seq s : forall w,
  (items_seq (pg w) <= items_seq (pg (snd (run_script s w))))%Z
  /\ others (pg (snd (run_script s w))) = others (pg w).
Proof.
  induction s as [| |c k IH]; intros w; cbn [run_script];
    [split; [cbn; lia|reflexivity]..|].
  destruct (perform_seq c w) as [H1 H2].
  destruct (perform c w) as [o w1]. cbn [snd] in *.
  destruct (IH o w1) as [H3 H4].
  destruct (run_script (k o) w1) as [r w2]. cbn [snd] in *.
  split; [lia|congruence].
Qed.

(** The teardown sends at most a ROLLBACK: the committed database is not
    touched. *)
Lemma after_each_pg w :
  match after_each w with
  | Normal w' => pg w' = pg w
  | Abrupt _ w' => pg w' = pg w
  end.
Proof.
  unfold after_each. destruct (var_trx w) as [[|m]|]; [reflexivity| |reflexivity].
  unfold rollback. destruct (scopes w !! m) as [sc|] eqn:E; [|reflexivity].
  destruct (bool_decide _); [|reflexivity].
  unfold set_scope_state. cbn [scopes emit]. rewrite E. reflexivity.
Qed.

Lemma run_test_seq t w :
  (items_seq (pg w) <= items_seq (pg (snd (run_test t w))))%Z
  /\ others (pg (snd (run_test t w))) = others (pg w).
Proof.
  destruct t as [[|e] bd].
  - destruct (test_started bd w) as (view & failed & seq & evs & E & _).
    pose proof (run_script_seq bd (body_world w)) as [H1 H2].
    rewrite run_test_started in *. unfold run_body in *.
    fold (body_world w) in *.
    destruct (run_script bd (body_world w)) as [r w2]. cbn [snd] in *.
    pose proof (after_each_pg w2) as H3.
    assert (Hb : pg (body_world w) = pg w) by now rewrite body_world_eq.
    rewrite Hb in *.
    destruct (after_each w2) as [w3|e3 w3]; cbn [snd]; rewrite H3; auto.
  - unfold run_test, run_test_with. cbn [env].
    rewrite run_hook_start_failed.
    match goal with |- context [after_each ?W] =>
      pose proof (after_each_pg W) as H; destruct (after_each W) end;
      cbn [snd pg] in *; rewrite H; split; (lia || reflexivity).
Qed.

Lemma run_tests_seq ts : forall w,
  (items_seq (pg w) <= items_seq (pg (snd (run_tests ts w))))%Z
  /\ others (pg (snd (run_tests ts w))) = others (pg w).
Proof.
  induction ts as [|t ts IH]; intros w; cbn [run_tests].
  - cbn. split; [lia|reflexivity].
  - destruct (run_test_seq t w) as [H1 H2].
    destruct (run_test t w) as [[r|h|r e] w1]; cbn [snd] in *; auto.
    destruct (IH w1) as [H3 H4].
    destruct (run_tests ts w1) as [rs w2]. cbn [snd] in *.
    split; [lia|congruence].
Qed.

(** X11. Across the tests of a suite, from any world and whatever the
    tests do and however they end, the identity sequence of [items] never
    goes back (a rollback does not return the ids it took), and the other
    tables of the database are not touched; at the end of a whole suite
    the sequence is past the three seeded ids. *)
Theorem sequence_never_goes_back (ts : list test) (w : world) (d : database) :
  (items_seq (pg w) <= items_seq (pg (snd (run_tests ts w))))%Z
  /\ others (pg (snd (run_tests ts w))) = others (pg w)
  /\ (4 <= items_seq (pg (snd (run_suite ts (boot d)))))%Z.
Proof.
  destruct (run_tests_seq ts w) as [H1 H2].
  split; [exact H1|]. split; [exact H2|].
  rewrite run_suite_eq. cbn [snd].
  destruct (run_tests_seq ts (seeded d)) as [H3 _].
  rewrite seeded_eq in H3 at 1. exact H3.
Qed.






Lemma no_destroy_test t w :
  steady w ->
  Forall (fun e => is_destroy e = false) (log w) ->
  Forall (fun e => is_destroy e = false) (log (snd (run_test t w))).
Proof.
  intros Hs Hl. destruct t as [[|e] bd].
  - destruct (test_started bd w) as (view & failed & seq & evs & -> & Hevs).
    cbn [snd log]. apply Forall_app. split; [exact Hl|].
    repeat (apply Forall_cons; split; [reflexivity|]).
    apply Forall_app. split; [|repeat constructor].
    eapply Forall_impl; [exact Hevs|]. now intros e (s & -> & _).
  - unfold run_test, run_test_with. cbn [env].
    rewrite run_hook_start_failed.
    match goal with |- context [after_each ?W] =>
      assert (Hc : Forall closed (scopes W));
      [|destruct (after_each_closed W Hc) as [->|(e' & ->)]] end.
    + cbn [scopes]. apply Forall_app. split; [apply (steady_closed _ Hs)|].
      apply Forall_cons. split; [now right|constructor].
    + exact Hl.
    + exact Hl.
Qed.

Lemma no_destroy_tests ts : forall w,
  steady w ->
  Forall (fun e => is_destroy e = false) (log w) ->
  Forall (fun e => is_destroy e = false) (log (snd (run_tests ts w))).
Proof.
  induction ts as [|t ts IH]; intros w Hs Hl; cbn [run_tests]; [exact Hl|].
  pose proof (no_destroy_test t w Hs Hl) as H.
  pose proof (run_test_steady t w Hs) as Hs'.
  destruct (run_test t w) as [[r|h|r e] w1]; cbn [snd] in *; try exact H.
  specialize (IH w1 Hs' H).
  destruct (run_tests ts w1) as [rs w2]. exact IH.
Qed.

(** X13. Every suite, however its tests and hooks end, destroys the pool
    once, as the last thing it does; after that every call on a
    repository bound to [db] is rejected and changes nothing, and so is a
    run of the seed. *)
Theorem pool_destroyed_last (d : database) (ts : list test) (c : call) :
  destroyed (snd (run_suite ts (boot d))) = true
  /\ (exists l, log (snd (run_suite ts (boot d))) = l ++ [EvDestroy]
                /\ Forall (fun e => is_destroy e = false) l)
  /\ invoke Pool c (snd (run_suite ts (boot d)))
     = (Failed (VErr "Unable to acquire a connection"), snd (run_suite ts (boot d)))
  /\ seed_run (snd (run_suite ts (boot d)))
     = (Failed (VErr "Unable to acquire a connection"), snd (run_suite ts (boot d))).
Proof.
  rewrite run_suite_eq. cbn [snd].
  set (w := snd (run_tests ts (seeded d))).
  split; [reflexivity|]. split.
  - exists (log w). split; [reflexivity|].
    apply no_destroy_tests; [apply seeded_steady|].
    rewrite seeded_eq. cbn [log]. repeat constructor.
  - split; [|reflexivity].
    destruct c; reflexivity.
Qed.

End Aftermath.

(* ===================================================================== *)
(** * The tests of the file *)
(* ===================================================================== *)
Section TheFive.

Lemma saw_fits seq :
  (4 <= seq)%Z -> keys_ok (baseline ++ [stored_row saw "saw" seq]) = true.
Proof.
  intros Hs. apply keys_ok_NoDup. split.
  - cbn. repeat (apply NoDup_cons; split);
      rewrite ?not_elem_of_cons; repeat split;
      try lia; try apply not_elem_of_nil; apply NoDup_nil_2.
  - apply distinct_NoDup. reflexivity.
Qed.

Lemma run_await c k w :
  run_script (Await c k) w =
  (Result (passed (fst (run_script (k (fst (perform c w))) (snd (perform c w)))))
          (fst (perform c w)
             :: observed (fst (run_script (k (fst (perform c w))) (snd (perform c w))))),
   snd (run_script (k (fst (perform c w))) (snd (perform c w)))).
Proof.
  cbn [run_script]. destruct (perform c w) as [o w1]. cbn [fst snd].
  now destruct (run_script (k o) w1).
Qed.

Lemma perform_body c w :
  perform c (body_world w) =
  invoke (Trx (length (scopes w))) c
    (in_scope (body_world w) (length (scopes w)) (length (promises w))
       (items_rows (pg w)) false (items_seq (pg w)) []).
Proof.
  rewrite <- body_world_in_scope. apply perform_invoke.
  now rewrite body_world_eq.
Qed.

(** Each test of the file passes when it starts on the baseline with the
    sequence past the seeded ids. *)
Lemma the_five_pass w :
  items_rows (pg w) = baseline -> (4 <= items_seq (pg w))%Z ->
  Forall (fun t => passed (fst (run_script t (body_world w))) = true) the_five.
Proof.
  intros Hr Hs.
  pose proof (body_world_length w) as Hn.
  repeat (apply Forall_cons; split); [| | | | |constructor].
  - unfold test_find. rewrite run_await, perform_body. cbn [invoke].
    rewrite find_in_scope, Hr by exact Hn. reflexivity.
  - unfold test_findById. rewrite run_await, perform_body. cbn [invoke].
    rewrite findById_in_scope, Hr by exact Hn. reflexivity.
  - unfold test_create. rewrite run_await, perform_body. cbn [invoke].
    rewrite Hr.
    rewrite (create_stores _ _ _ Hn baseline _ [] saw "saw"
               eq_refl (saw_fits _ Hs)).
    reflexivity.
  - unfold test_updateById. rewrite run_await, perform_body. cbn [invoke].
    rewrite Hr.
    rewrite (update_applied _ _ _ Hn baseline _ [] 1 best_seller
               (Row 1 "hammer" None (Some "A Claw Hammer"))
               eq_refl eq_refl eq_refl eq_refl eq_refl).
    reflexivity.
  - unfold test_deleteById. rewrite run_await, perform_body. cbn [invoke].
    rewrite deleteById_in_scope, Hr by exact Hn. reflexivity.
Qed.

(** X14. The tests of the file do not depend on their order or on their
    neighbours: each of the five passes wherever it stands in a suite of
    tests run in scopes, whatever the tests before it did. *)
Theorem the_five_pass_anywhere (d : database) (pre post : list script) :
  Forall (fun t =>
            exists r,
              fst (run_suite (scoped (pre ++ t :: post)) (boot d)) !! length pre
                = Some (Ran r)
              /\ passed r = true)
         the_five.
Proof.
  pose proof (run_tests_steady (scoped pre) _ (seeded_steady d)) as Hs.
  destruct (run_tests_seq (scoped pre) (seeded d)) as [Hq _].
  assert (H4 : (4 <= items_seq (pg (snd (run_tests (scoped pre) (seeded d)))))%Z).
  { rewrite seeded_eq in Hq at 1. exact Hq. }
  eapply Forall_impl; [exact (the_five_pass _ (steady_rows _ Hs) H4)|].
  intros t Ht. cbn beta in Ht.
  rewrite run_suite_reports, run_tests_scoped_app. cbn [fst].
  rewrite run_tests_scoped_cons. cbn [fst].
  eexists. split; [|exact Ht].
  rewrite <- (run_tests_scoped_length pre (seeded d)).
  apply list_lookup_middle. reflexivity.
Qed.

End TheFive.

(* ===================================================================== *)
(** * rejected, applied twice *)
(* ===================================================================== *)
Section RejectedTwice.

Lemma settles_refl st : settles st st.
Proof. induction st; constructor; assumption. Qed.

Lemma settles_trans a b c : settles a b -> settles b c -> settles a c.
Proof.
  intros Hab. revert c. induction Hab as [|x a b Hab IH|s a b Hab IH]; intros c Hbc.
  - exact Hbc.
  - inversion Hbc; subst; constructor; auto.
  - inversion Hbc; subst; constructor; auto.
Qed.

Lemma settles_length a b : settles a b -> length a = length b.
Proof. induction 1; cbn; congruence. Qed.

Lemma settle_settles r s st : settles st (settle r s st).
Proof.
  induction st as [|c st IH]; cbn [settle]; [constructor|].
  case_bool_decide.
  - destruct c as [[| |]|]; constructor; apply settles_refl.
  - constructor. exact IH.
Qed.

Lemma settles_app_l ext a b : settles a b -> settles (ext ++ a) (ext ++ b).
Proof. intros H. induction ext; cbn; [exact H|constructor; assumption]. Qed.

Lemma settles_app_inv ext a c :
  settles (ext ++ a) c ->
  exists ext' a', c = ext' ++ a' /\ settles a a' /\ length ext' = length ext.
Proof.
  revert c. induction ext as [|x ext IH]; intros c H; cbn in H.
  - exists [], c. auto.
  - inversion H as [|x' a0 b0 H0|s a0 b0 H0]; subst;
      destruct (IH _ H0) as (ext' & a' & -> & Ha & Hl);
      eexists (_ :: ext'), a'; cbn; repeat split; auto.
Qed.

(** However the store evolves, what was there is still there, with some
    of its promises settled, under the promises made since. *)
Lemma evolves_settles a b :
  evolves a b -> exists ext a', b = ext ++ a' /\ settles a a'.
Proof.
  induction 1 as [a|a b r s _ (ext & a' & -> & Ha)|a b c _ (ext & a' & -> & Ha)].
  - exists [], a. split; [reflexivity|apply settles_refl].
  - destruct (settles_app_inv ext a' _ (settle_settles r s (ext ++ a')))
      as (ext' & a'' & -> & Ha' & _).
    exists ext', a''. split; [reflexivity|].
    eapply settles_trans; eassumption.
  - exists (c :: ext), a'. auto.
Qed.

Lemma catch_identity_twice s :
  catch_settled (fun err => Return err) (catch_settled (fun err => Return err) s)
  = catch_settled (fun err => Return err) s.
Proof. now destruct s. Qed.

(** X15. [rejected] is idempotent: however the store evolves,
    [rejected(rejected(p))] is in the state of [rejected(p)]. *)
Theorem rejected_twice (st : store) (p : pid) (st3 : store) :
  evolves (snd (rejected (fst (rejected p st)) (snd (rejected p st)))) st3 ->
  state_of st3 (fst (rejected (fst (rejected p st)) (snd (rejected p st))))
  = state_of st3 (fst (rejected p st)).
Proof.
  unfold rejected, promise_catch, alloc. cbn [fst snd length].
  intros Hev.
  destruct (evolves_settles _ _ Hev) as (ext & a' & -> & Ha).
  inversion Ha as [|c1 a1 b1 H1|]; subst.
  inversion H1 as [|c2 a2 b2 H2|]; subst.
  rewrite (settles_length _ _ H2).
  change (length (Catch p (fun err => Return err) :: b2)) with (S (length b2)).
  replace (S (length b2))
    with (length (Catch p (fun err => Return err) :: b2)) at 1 by reflexivity.
  rewrite state_of_here.
  change (ext ++ Catch (length b2) (fun err => Return err)
            :: Catch p (fun err => Return err) :: b2)
    with (ext ++ [Catch (length b2) (fun err => Return err)]
            ++ Catch p (fun err => Return err) :: b2).
  rewrite app_assoc, state_of_here.
  replace (state_of (Catch p (fun err => Return err) :: b2) (length b2))
    with (catch_settled (fun err => Return err) (state_of b2 p)).
  - apply catch_identity_twice.
  - cbn [state_of]. now rewrite bool_decide_eq_true_2.
Qed.

Lemma rejected_twice_witness :
  state_of (settle 0 (Rejected (VErr "boom"))
              (snd (rejected (fst (rejected 0 [Root Pending]))
                      (snd (rejected 0 [Root Pending])))))
           (fst (rejected (fst (rejected 0 [Root Pending]))
                   (snd (rejected 0 [Root Pending]))))
  = state_of (settle 0 (Rejected (VErr "boom"))
                (snd (rejected (fst (rejected 0 [Root Pending]))
                        (snd (rejected 0 [Root Pending])))))
             (fst (rejected 0 [Root Pending])).
Proof.
  apply (rejected_twice [Root Pending] 0 _ (evolves_settle _ _ _ _ (evolves_refl _))).
Defined.

End RejectedTwice.

(* ===================================================================== *)
(** * The repository on the seeded rows *)
(* ===================================================================== *)
Section OnTheBaseline.

Lemma first_body_open : 0 < length (scopes first_body).
Proof. vm_compute. constructor. Qed.

Lemma text_ok_dec s :
  forallb (fun c => negb (Ascii.eqb c Ascii.zero)) (String.list_ascii_of_string s)
    = true ->
  text_ok s.
Proof.
  intros H. apply Forall_forall. intros c Hc ->.
  apply list_elem_of_In in Hc.
  now pose proof (proj1 (forallb_forall _ _) H _ Hc).
Qed.

Lemma saw_storable : storable saw.
Proof.
  repeat split; try exact I; try (apply text_ok_dec; reflexivity).
  cbn. lia.
Qed.

Lemma best_seller_storable : storable best_seller.
Proof. repeat split; try exact I. apply text_ok_dec. reflexivity. Qed.

Lemma small_int4 z : (Z.abs z <= 1000)%Z -> int4 z.
Proof. unfold int4. lia. Qed.

Lemma create_then_found_witness :
  fst (find (itemsData (Trx 0))
         (snd (create (itemsData (Trx 0)) saw
                 (in_scope first_body 0 0 baseline false 4 []))))
  = Resolved (VRows (baseline ++ [Row 4 "saw" None (Some "A Nice Saw")])).
Proof.
  apply (proj2 (proj2 (create_then_found first_body 0 0 first_body_open
                         baseline 4 [] saw "saw" saw_storable
                         (small_int4 4 ltac:(cbn; lia)) eq_refl eq_refl))).
Defined.

Lemma create_refused_poisons_witness :
  exists m evs1 evs2,
    create (itemsData (Trx 0)) (Fields None (Some "hammer") None None)
      (in_scope first_body 0 0 baseline false 4 [])
    = (Failed (VErr m), in_scope first_body 0 0 baseline true 5 evs1)
    /\ invoke (Trx 0) Find (in_scope first_body 0 0 baseline true 5 evs1)
       = (Failed (VErr "current transaction is aborted"),
          in_scope first_body 0 0 baseline true 5 evs2).
Proof.
  apply (create_refused_poisons first_body 0 0 first_body_open baseline 4 []
           (Fields None (Some "hammer") None None) Find).
  intros s E. injection E as <-. reflexivity.
Defined.

Lemma updateById_applies_witness :
  fst (updateById (itemsData (Trx 0)) 1 best_seller
         (in_scope first_body 0 0 baseline false 4 []))
  = Resolved (VRow (Row 1 "hammer" None (Some "Our best seller!"))).
Proof.
  rewrite (proj1 (updateById_applies first_body 0 0 first_body_open baseline 4 []
                    1 best_seller hammer (small_int4 1 ltac:(cbn; lia))
                    best_seller_storable eq_refl eq_refl eq_refl eq_refl eq_refl)).
  reflexivity.
Defined.

Lemma updateById_moving_id_witness :
  fst (updateById (itemsData (Trx 0)) 1 (Fields (Some 9%Z) None None None)
         (in_scope first_body 0 0 baseline false 4 []))
  = Resolved VUndef.
Proof.
  refine (proj1 (updateById_moving_id first_body 0 0 first_body_open baseline 4 []
                   1 9 (Fields (Some 9%Z) None None None) hammer
                   (small_int4 1 _) _ eq_refl _ _ eq_refl eq_refl)).
  - cbn. lia.
  - unfold storable, int4. cbn. lia.
  - discriminate.
  - apply elem_of_cons. now left.
Defined.

Lemma deleteById_then_gone_witness :
  fst (findById (itemsData (Trx 0)) 1
         (snd (deleteById (itemsData (Trx 0)) 1
                 (in_scope first_body 0 0 baseline false 4 []))))
  = Resolved VUndef.
Proof.
  apply (proj1 (deleteById_then_gone first_body 0 0 first_body_open baseline 4 [] 1
                  (small_int4 1 ltac:(cbn; lia)))).
Defined.

Lemma updateById_missing_witness :
  updateById (itemsData (Trx 0)) 7 best_seller
    (in_scope first_body 0 0 baseline false 4 [])
  = (Resolved VUndef,
     in_scope first_body 0 0 baseline false 4
       ([] ++ [EvSql (Trx 0) (SUpdate 7 best_seller); EvSql (Trx 0) (SSelectById 7)])).
Proof.
  refine (updateById_missing first_body 0 0 first_body_open baseline 4 [] 7
            best_seller (small_int4 7 _) best_seller_storable eq_refl eq_refl _).
  - cbn. lia.
  - apply (proj1 (bool_decide_eq_false _)). reflexivity.
Defined.

Lemma reads_change_nothing_witness :
  scopes (snd (findById (itemsData (Trx 0)) 1 first_body)) = scopes first_body.
Proof.
  apply (reads_change_nothing (Trx 0) 1 first_body (small_int4 1 ltac:(cbn; lia))).
Defined.


Lemma keys_kept_witness :
  exists view' failed seq' evs',
    snd (invoke (Trx 0) (DeleteById 1) (in_scope first_body 0 0 baseline false 4 []))
    = in_scope first_body 0 0 view' failed seq' evs'
    /\ keys_ok view' = true.
Proof.
  apply (keys_kept first_body 0 0 first_body_open baseline 4 [] (DeleteById 1) eq_refl).
Defined.

Lemma same_through_db_and_scope_witness :
  exists o rows' seq' failed evs1' evs2',
    invoke Pool (Create saw) (through_pool (seeded (Database [] 1 [])) baseline 4 [])
      = (o, through_pool (seeded (Database [] 1 [])) rows' seq' evs1')
    /\ invoke (Trx 0) (Create saw) (in_scope first_body 0 0 baseline false 4 [])
       = (o, in_scope first_body 0 0 rows' failed seq' evs2').
Proof.
  apply (same_through_db_and_scope (seeded (Database [] 1 [])) first_body 0 0
           baseline 4 [] [] (Create saw) eq_refl first_body_open).
Defined.

End OnTheBaseline.

(* ===================================================================== *)
(** * While a test runs, and when the first transaction does not start *)
(* ===================================================================== *)
Section MidTest.

(** X16. What a test body changes is not visible outside its
    transaction, also before the rollback: at the end of any body, at any
    place in a suite of tests run in scopes, the committed rows are the
    baseline and [find] through [db] resolves to them. *)
Theorem uncommitted_not_visible (d : database) (pre : list script) (bd : script) :
  items_rows (pg (snd (run_script bd
                         (body_world (snd (run_tests (scoped pre) (seeded d)))))))
    = baseline
  /\ fst (find (itemsData Pool)
            (snd (run_script bd
                    (body_world (snd (run_tests (scoped pre) (seeded d)))))))
     = Resolved (VRows baseline).
Proof.
  pose proof (run_tests_steady (scoped pre) _ (seeded_steady d)) as Hs.
  set (w := snd (run_tests (scoped pre) (seeded d))) in *.
  assert (Hi : var_items (body_world w) = Some (Trx (length (scopes w))))
    by now rewrite body_world_eq.
  assert (Hd : during (body_world w) (length (scopes w)) (length (promises w))
                 (body_world w)).
  { exists (items_rows (pg w)), false, (items_seq (pg w)), [].
    split; [apply body_world_in_scope|constructor]. }
  destruct (run_script_during _ _ _ bd (body_world_length w) Hi _ Hd)
    as (view & failed & seq & evs & -> & _).
  assert (Hb : pg (body_world w) = pg w) by now rewrite body_world_eq.
  assert (Ha : destroyed (body_world w) = destroyed w) by now rewrite body_world_eq.
  cbn [itemsData find]. unfold find_, exec, in_scope.
  cbn [pg items_rows destroyed].
  rewrite Ha, (steady_alive _ Hs), Hb, (steady_rows _ Hs).
  split; reflexivity.
Qed.

(** X17. When the transaction of the first test of a run does not
    start, [trx] was never assigned: the [afterEach] hook throws a
    TypeError, and sends and changes nothing. *)
Theorem teardown_without_handle (d : database) (e : value)
    (setup : handle -> world -> completion) :
  after_each (snd (run_hook (begin setup) (StartFailed e) (seeded d)))
  = Abrupt (VErr "TypeError: Cannot read property rollback of undefined")
           (snd (run_hook (begin setup) (StartFailed e) (seeded d))).
Proof.
  rewrite run_hook_start_failed. cbn [snd]. unfold after_each.
  cbn [var_trx]. now rewrite seeded_eq.
Qed.

End MidTest.
